(** * aioaseko: the mobile API account ([aioaseko/mobile.py])

    A shallow embedding of [MobileAccount] and proofs about its token
    life cycle and request pipeline.

    Python values are embedded as the JSON values the module handles
    ([None] is [JNull], a [str] is the string of its UTF-8 bytes); a coroutine is a computation over the account's
    fields and the outside world, which may end in a raised exception while
    keeping every assignment made before the raise; one coroutine of the
    account runs at a time.  The HTTP session, the
    clock and the JWT decoder are collaborators of the module and are taken
    as variables. *)

From Stdlib Require Import ZArith QArith String Ascii List Lia.
From Stdlib Require DecimalString DecimalPos DecimalZ.
From stdpp Require Import base option list strings gmap.

Local Open Scope string_scope.
Local Open Scope Z_scope.
Local Set Warnings "-register-all".

(** ** Python values *)

(** A Python [float]: a finite value, an infinity or not-a-number. Only the
    order of floats is used below, so a finite float is the rational it
    denotes. *)
Inductive pyfloat :=
| Finite (q : Q)
| Inf (neg : bool)
| NaN.

(** What [json.loads] builds, which is also every value the module stores
    in a field: [None], [bool], [int], [float], [str], [list], [dict]. *)
Inductive json :=
| JNull
| JBool (b : bool)
| JInt (z : Z)
| JFloat (f : pyfloat)
| JStr (s : string)
| JArr (l : list json)
| JObj (m : gmap string json).

(** [x is None] *)
Definition is_None (v : json) : bool :=
  match v with JNull => true | _ => false end.

(** ** Exceptions *)

Inductive exn :=
| InvalidAuthCredentials          (* aioaseko.exceptions *)
| APIUnavailable                  (* aioaseko.exceptions *)
| ClientError (cls : string)      (* aiohttp.ClientError, by subclass name *)
| TimeoutError                    (* asyncio.TimeoutError, not a ClientError *)
| DecodeError                     (* jwt.DecodeError *)
| KeyError (key : string)
| TypeError
| ValueError
| OverflowError
| AttributeError.

(** [isinstance(e, ClientError)], the test of [except ClientError]. *)
Definition is_ClientError (e : exn) : bool :=
  match e with ClientError _ => true | _ => false end.

(** The outcome of evaluating a Python expression. *)
Inductive result (A : Type) :=
| Ret (a : A)
| Raise (e : exn).
Arguments Ret {A} a.
Arguments Raise {A} e.

#[global] Instance result_ret : MRet result := λ A a, Ret a.
#[global] Instance result_bind : MBind result := λ A B f r,
  match r with
  | Ret a => f a
  | Raise e => Raise e
  end.

(** The elements of a list comprehension, left to right: the first raise
    ends it. *)
Fixpoint comprehension {A B} (f : A → result B) (l : list A) : result (list B) :=
  match l with
  | [] => Ret []
  | x :: l' => y ← f x; ys ← comprehension f l'; mret (y :: ys)
  end.

(** ** Builtins on values *)

Definition Qltb (x y : Q) : bool := (Qnum x * QDen y <? Qnum y * QDen x)%Z.

(** The number a value stands for in an arithmetic comparison: [bool] is a
    subclass of [int]; no other type compares with a float. *)
Definition num_value (v : json) : option pyfloat :=
  match v with
  | JInt z => Some (Finite (inject_Z z))
  | JBool b => Some (Finite (inject_Z (Z.b2z b)))
  | JFloat f => Some f
  | _ => None
  end.

(** [t < f] for a finite float [t]. *)
Definition float_ltb (t : Q) (f : pyfloat) : bool :=
  match f with
  | Finite q => Qltb t q
  | Inf neg => negb neg
  | NaN => false
  end.

(** [t < v] where [t] is a finite float: a [TypeError] when [v] is not a
    number. *)
Definition py_lt (t : Q) (v : json) : result bool :=
  match num_value v with
  | Some f => Ret (float_ltb t f)
  | None => Raise TypeError
  end.

(** [d[k]] for a string key [k]: [KeyError] on a dict without the key,
    [TypeError] on every other type (a list or a string wants an integer
    index, the rest is not subscriptable). *)
Definition py_getitem (d : json) (k : string) : result json :=
  match d with
  | JObj m => match m !! k with Some v => Ret v | None => Raise (KeyError k) end
  | _ => Raise TypeError
  end.

(** [d.get(k)]: [None] on a dict without the key; only a dict has [get]. *)
Definition py_get (d : json) (k : string) : result json :=
  match d with
  | JObj m => Ret (default JNull (m !! k))
  | _ => Raise AttributeError
  end.

(** *** [int(x)]

    A [str] is a sequence of code points; a string here holds its UTF-8
    bytes (a lone surrogate, which [json.loads] can produce, as the three
    bytes of its code point). [int] of a string is CPython 3.11's:
    [PyLong_FromUnicodeObject], which turns the spaces and decimal digits
    of Unicode 14.0 into ASCII, then [PyLong_FromString] in base ten. *)

(** The bytes of a string. *)
Definition bytes_of_string (s : string) : list N :=
  N_of_ascii <$> list_ascii_of_string s.

(** A byte that continues a UTF-8 sequence. *)
Definition is_continuation (b : N) : bool := ((128 <=? b) && (b <? 192))%N.

(** The code points a sequence of UTF-8 bytes encodes, each in its
    shortest form; [None] for bytes that are no such sequence. *)
Fixpoint code_points (l : list N) : option (list N) :=
  match l with
  | [] => Some []
  | b1 :: l1 =>
      if (b1 <? 128)%N then cons b1 <$> code_points l1
      else if (b1 <? 192)%N then None
      else if (b1 <? 224)%N then
        match l1 with
        | b2 :: l2 =>
            let c := ((b1 - 192) * 64 + (b2 - 128))%N in
            if is_continuation b2 && (128 <=? c)%N
            then cons c <$> code_points l2 else None
        | _ => None
        end
      else if (b1 <? 240)%N then
        match l1 with
        | b2 :: b3 :: l3 =>
            let c := ((b1 - 224) * 4096 + (b2 - 128) * 64 + (b3 - 128))%N in
            if is_continuation b2 && is_continuation b3 && (2048 <=? c)%N
            then cons c <$> code_points l3 else None
        | _ => None
        end
      else if (b1 <? 248)%N then
        match l1 with
        | b2 :: b3 :: b4 :: l4 =>
            let c := ((b1 - 240) * 262144 + (b2 - 128) * 4096
                      + (b3 - 128) * 64 + (b4 - 128))%N in
            if is_continuation b2 && is_continuation b3 && is_continuation b4
               && (65536 <=? c)%N && (c <=? 1114111)%N
            then cons c <$> code_points l4 else None
        | _ => None
        end
      else None
  end.

(** [Py_ISSPACE]: the white space of the C locale. *)
Definition Py_ISSPACE (c : N) : bool :=
  (((9 <=? c) && (c <=? 13)) || (c =? 32))%N.

(** [Py_UNICODE_ISSPACE]: the characters of bidirectional type WS, B or S
    and of category Zs. *)
Definition Py_UNICODE_ISSPACE (c : N) : bool :=
  (((9 <=? c) && (c <=? 13)) || ((28 <=? c) && (c <=? 32))
   || (c =? 0x85) || (c =? 0xa0) || (c =? 0x1680)
   || ((0x2000 <=? c) && (c <=? 0x200a))
   || (c =? 0x2028) || (c =? 0x2029) || (c =? 0x202f) || (c =? 0x205f)
   || (c =? 0x3000))%N.

(** Where the decimal digits of Unicode 14.0 stand: each entry is the
    zero of ten consecutive digits. *)
Definition decimal_zeros : list N :=
  [0x30; 0x660; 0x6f0; 0x7c0; 0x966; 0x9e6; 0xa66; 0xae6;
   0xb66; 0xbe6; 0xc66; 0xce6; 0xd66; 0xde6; 0xe50; 0xed0;
   0xf20; 0x1040; 0x1090; 0x17e0; 0x1810; 0x1946; 0x19d0; 0x1a80;
   0x1a90; 0x1b50; 0x1bb0; 0x1c40; 0x1c50; 0xa620; 0xa8d0; 0xa900;
   0xa9d0; 0xa9f0; 0xaa50; 0xabf0; 0xff10; 0x104a0; 0x10d30; 0x11066;
   0x110f0; 0x11136; 0x111d0; 0x112f0; 0x11450; 0x114d0; 0x11650; 0x116c0;
   0x11730; 0x118e0; 0x11950; 0x11c50; 0x11d50; 0x11da0; 0x16a60; 0x16ac0;
   0x16b50; 0x1d7ce; 0x1d7d8; 0x1d7e2; 0x1d7ec; 0x1d7f6; 0x1e140; 0x1e2f0;
   0x1e950; 0x1fbf0]%N.

(** [Py_UNICODE_TODECIMAL]: the value of a decimal digit. *)
Definition Py_UNICODE_TODECIMAL (c : N) : option N :=
  (λ z, (c - z)%N) <$> List.find (λ z, (z <=? c)%N && (c <? z + 10)%N) decimal_zeros.

(** The loop of [_PyUnicode_TransformDecimalAndSpaceToASCII]: a code point
    below 127 stays, a space becomes [' '], a decimal digit its ASCII
    digit, and at anything else the string ends with a ['?']. *)
Fixpoint to_ascii (l : list N) : list N :=
  match l with
  | [] => []
  | ch :: l' =>
      if (ch <? 127)%N then ch :: to_ascii l'
      else if Py_UNICODE_ISSPACE ch then 32%N :: to_ascii l'
      else
        match Py_UNICODE_TODECIMAL ch with
        | Some d => (48 + d)%N :: to_ascii l'
        | None => [63%N]
        end
  end.

(** [_PyUnicode_TransformDecimalAndSpaceToASCII]: an ASCII string is
    returned as it is. *)
Definition transform_decimal_and_space (l : list N) : list N :=
  if forallb (λ c, (c <? 128)%N) l then l else to_ascii l.

Fixpoint skip_spaces (l : list N) : list N :=
  match l with
  | c :: l' => if Py_ISSPACE c then skip_spaces l' else l
  | [] => []
  end.

(** [sys.get_int_max_str_digits()] as the interpreter starts, and the
    number of digits from which the limit is looked at. *)
Definition int_max_str_digits : nat := 4300.
Definition max_str_digits_threshold : nat := 640.

(** The scan of the digits in [PyLong_FromString], base ten: the value
    read, the number of digits (underscores are not counted) and what is
    left; [None] for a leading, doubled or trailing underscore and for no
    digit at all. [prev] tells whether the character before was an
    underscore, [any] whether a character was read. *)
Fixpoint scan_digits (value : Z) (digits : nat) (prev any : bool) (l : list N)
    : option (Z * nat * list N) :=
  match l with
  | c :: l' =>
      if (c =? 95)%N then
        if prev || negb any then None
        else scan_digits value digits true true l'
      else if ((48 <=? c) && (c <=? 57))%N then
        scan_digits (10 * value + Z.of_N (c - 48)) (S digits) false true l'
      else if prev || negb any then None
      else Some (value, digits, l)
  | [] => if prev || negb any then None else Some (value, digits, [])
  end.

(** [PyLong_FromString(str, &end, 10)] with the test of
    [PyLong_FromUnicodeObject] that [end] is the end of the string: white
    space, a sign, the digits, white space; every failure, the digit limit
    too, is a [ValueError]. *)
Definition PyLong_FromString (l : list N) : result Z :=
  let l1 := skip_spaces l in
  let '(sign, l2) :=
    match l1 with
    | c :: r =>
        if (c =? 43)%N then (1, r)
        else if (c =? 45)%N then (-1, r)
        else (1, l1)
    | [] => (1, l1)
    end in
  match scan_digits 0 0 false false l2 with
  | None => Raise ValueError
  | Some (value, digits, rest) =>
      match skip_spaces rest with
      | _ :: _ => Raise ValueError
      | [] =>
          if (max_str_digits_threshold <? digits)%nat
             && (0 <? int_max_str_digits)%nat
             && (int_max_str_digits <? digits)%nat
          then Raise ValueError
          else Ret (sign * value)
      end
  end.

(** [int(s)] for a string [s]. Bytes that are no UTF-8 text stand for no
    [str]; they are given a [ValueError]. *)
Definition int_of_string (s : string) : result Z :=
  match code_points (bytes_of_string s) with
  | Some l => PyLong_FromString (transform_decimal_and_space l)
  | None => Raise ValueError
  end.

(** [int(x)]: a string is parsed, an [int] or [bool] is itself, a float is
    truncated towards zero; [None], lists and dicts are a [TypeError]. *)
Definition py_int (v : json) : result Z :=
  match v with
  | JStr s => int_of_string s
  | JInt z => Ret z
  | JBool b => Ret (Z.b2z b)
  | JFloat (Finite q) => Ret (Z.quot (Qnum q) (Z.pos (Qden q)))
  | JFloat (Inf _) => Raise OverflowError
  | JFloat NaN => Raise ValueError
  | JNull | JArr _ | JObj _ => Raise TypeError
  end.

(** The characters of a string: every byte that continues no UTF-8
    sequence starts one. The first component holds continuation bytes that
    no character claimed yet. *)
Fixpoint split_characters (l : list ascii) : string * list string :=
  match l with
  | [] => (EmptyString, [])
  | b :: l' =>
      let '(pending, chars) := split_characters l' in
      if is_continuation (N_of_ascii b) then (String b pending, chars)
      else (EmptyString, String b pending :: chars)
  end.

Definition characters (s : string) : list string :=
  let '(pending, chars) := split_characters (list_ascii_of_string s) in
  match pending with
  | EmptyString => chars
  | _ => pending :: chars
  end.

(** What [for item in x] runs over: the elements of a list, the keys of a
    dict, the characters of a string; nothing else is iterable. *)
Definition py_iter (v : json) : result (list json) :=
  match v with
  | JArr l => Ret l
  | JObj m => Ret (JStr <$> (map_to_list m).*1)
  | JStr s => Ret (JStr <$> characters s)
  | _ => Raise TypeError
  end.

(** ** The account and its collaborators *)

(** The fields [__init__] sets, apart from [_session], which is the
    transport below. *)
Record MobileAccount := {
  _username : json;
  _password : json;
  _access_token : json;
  _refresh_token : json;
}.

(** [MobileAccount.__init__], the session apart; an argument left out is
    [None]. *)
Definition __init__ (username password access_token refresh_token : json) : MobileAccount :=
  {| _username := username; _password := password;
     _access_token := access_token; _refresh_token := refresh_token |}.

(** The property [access_token] *)
Definition access_token (a : MobileAccount) : json := _access_token a.

(** The property [refresh_token] *)
Definition refresh_token (a : MobileAccount) : json := _refresh_token a.

Definition set_access_token (v : json) (a : MobileAccount) : MobileAccount :=
  {| _username := _username a; _password := _password a;
     _access_token := v; _refresh_token := _refresh_token a |}.

Definition set_refresh_token (v : json) (a : MobileAccount) : MobileAccount :=
  {| _username := _username a; _password := _password a;
     _access_token := _access_token a; _refresh_token := v |}.

(** The arguments of [session.request]. *)
Record Request := {
  req_method : string;
  req_url : string;
  req_data : option (gmap string json);
  req_headers : option (gmap string json);
}.

(** An [aiohttp.ClientResponse]: its [status] and what awaiting [json()]
    gives. *)
Record ClientResponse := {
  status : Z;
  resp_json : result json;
}.

(** [ClientResponse.raise_for_status] of aiohttp: a [ClientResponseError]
    for a status of 400 or more, nothing below. *)
Definition raise_for_status (resp : ClientResponse) : result unit :=
  if 400 <=? status resp then Raise (ClientError "ClientResponseError")
  else Ret tt.

(** Modelled from the spec: the [Unit] record of [aioaseko/unit.py], a file
    that is not with the sources ("serial number (integer), type, optional
    name, optional notes, timezone, online flag, last-data timestamp, error
    flag"). Its constructor takes the account first; that back reference
    is not kept here. *)
Record Unit := {
  unit_serial_number : Z;
  unit_type : json;
  unit_name : json;
  unit_notes : json;
  unit_timezone : json;
  unit_is_online : json;
  unit_date_last_data : json;
  unit_has_error : json;
}.

(** The element expression of the comprehension in [get_units]; Python
    evaluates the arguments of [Unit(...)] left to right. *)
Definition unit_of_item (item : json) : result Unit :=
  sn ← py_getitem item "serialNumber";
  n ← py_int sn;
  ty ← py_getitem item "type";
  nm ← py_get item "name";
  nt ← py_get item "notes";
  tz ← py_getitem item "timezone";
  on ← py_getitem item "isOnline";
  dl ← py_getitem item "dateLastData";
  he ← py_getitem item "hasError";
  mret {| unit_serial_number := n; unit_type := ty; unit_name := nm;
          unit_notes := nt; unit_timezone := tz; unit_is_online := on;
          unit_date_last_data := dl; unit_has_error := he |}.

Definition api_base : string := "https://pool.aseko.com/api/v2/".

(** The state a coroutine of the account runs in, over a world outside the
    process (the server and the network behind the session, and the clock).
    [sent] is what a recording transport would hold: every request handed
    to the session so far with its outcome, oldest first. *)
Record State (World : Type) := {
  acct : MobileAccount;
  world : World;
  sent : list (Request * result ClientResponse);
}.
Arguments Build_State {World} _ _ _.
Arguments acct {World} _.
Arguments world {World} _.
Arguments sent {World} _.

(** ** A scripted transport

    A world for running the account on concrete inputs: a clock that
    stands still and the answers the session will give, in order. When the
    script is used up the connection fails. *)

Record Scripted := {
  now : Q;
  script : list (result ClientResponse);
}.

Definition scripted_request (req : Request) (w : Scripted) : result ClientResponse * Scripted :=
  match script w with
  | [] => (Raise (ClientError "ClientConnectorError"), w)
  | r :: rs => (r, {| now := now w; script := rs |})
  end.

(** A decoder that knows three tokens: one expiring at 2000, one that
    expired at 500 and one without [exp]; anything else is malformed. *)
Definition toy_decode (tok : json) : result (gmap string json) :=
  match tok with
  | JStr s =>
      if String.eqb s "fresh" then Ret {[ "exp" := JInt 2000 ]}
      else if String.eqb s "stale" then Ret {[ "exp" := JInt 500 ]}
      else if String.eqb s "noexp" then Ret ∅
      else Raise DecodeError
  | _ => Raise DecodeError
  end.

Definition account (access refresh_tok : json) : MobileAccount :=
  {| _username := JStr "user"; _password := JStr "secret";
     _access_token := access; _refresh_token := refresh_tok |}.

Definition start (a : MobileAccount) (answers : list (result ClientResponse)) : State Scripted :=
  {| acct := a; world := {| now := 1000; script := answers |}; sent := [] |}.

Definition tokens_body (access refresh_tok : string) : json :=
  JObj {[ "accessToken" := JStr access; "refreshToken" := JStr refresh_tok ]}.

Definition ok_response (body : json) : result ClientResponse :=
  Ret {| status := 200; resp_json := Ret body |}.

(** A decoder whose one token has a payload with a text for [exp]. *)
Definition text_exp_decode (tok : json) : result (gmap string json) :=
  match tok with
  | JStr s =>
      if String.eqb s "texp" then Ret {[ "exp" := JStr "soon" ]}
      else Raise DecodeError
  | _ => Raise DecodeError
  end.

(** An item without ["timezone"]. *)
Definition item_without_timezone : json :=
  JObj {[ "serialNumber" := JStr "7"; "type" := JStr "X";
          "isOnline" := JBool true; "dateLastData" := JStr "...";
          "hasError" := JBool false ]}.

(** The item of the single-item [units] response, the body around it and
    the unit it stands for. *)
Definition example_item : json :=
  JObj {[ "serialNumber" := JStr "123"; "type" := JStr "X";
          "timezone" := JStr "UTC"; "isOnline" := JBool true;
          "dateLastData" := JStr "..."; "hasError" := JBool false ]}.

(** Two more items: one with a signed serial number in a string, a name
    and [null] notes, one with a number for serial number and with notes. *)
Definition second_item : json :=
  JObj {[ "serialNumber" := JStr "-0042"; "type" := JStr "Y"; "name" := JStr "Pool";
          "notes" := JNull; "timezone" := JStr "CET"; "isOnline" := JBool false;
          "dateLastData" := JStr "..."; "hasError" := JBool true ]}.

Definition third_item : json :=
  JObj {[ "serialNumber" := JInt 7; "type" := JStr "Z"; "notes" := JStr "spare";
          "timezone" := JStr "UTC"; "isOnline" := JBool true;
          "dateLastData" := JStr "..."; "hasError" := JBool false ]}.

Definition three_units_body : json :=
  JObj {[ "items" := JArr [example_item; second_item; third_item] ]}.

Definition three_units : list Unit :=
  [ {| unit_serial_number := 123; unit_type := JStr "X";
       unit_name := JNull; unit_notes := JNull;
       unit_timezone := JStr "UTC"; unit_is_online := JBool true;
       unit_date_last_data := JStr "..."; unit_has_error := JBool false |};
    {| unit_serial_number := -42; unit_type := JStr "Y";
       unit_name := JStr "Pool"; unit_notes := JNull;
       unit_timezone := JStr "CET"; unit_is_online := JBool false;
       unit_date_last_data := JStr "..."; unit_has_error := JBool true |};
    {| unit_serial_number := 7; unit_type := JStr "Z";
       unit_name := JNull; unit_notes := JStr "spare";
       unit_timezone := JStr "UTC"; unit_is_online := JBool true;
       unit_date_last_data := JStr "..."; unit_has_error := JBool false |} ].

Definition example_units_body : json :=
  JObj {[ "items" := JArr [example_item] ]}.

Definition example_unit : Unit :=
  {| unit_serial_number := 123; unit_type := JStr "X";
     unit_name := JNull; unit_notes := JNull;
     unit_timezone := JStr "UTC"; unit_is_online := JBool true;
     unit_date_last_data := JStr "..."; unit_has_error := JBool false |}.

(** ** The account's coroutines *)

Section Account.

Variable World : Type.

(** [await session.request(...)]: a response or a raised exception, and the
    world after the exchange. *)
Variable session_request : Request → World → result ClientResponse * World.

(** The clock [time.time()] reads. *)
Variable time_time : World → Q.

(** [jwt.decode(token, "", ["RS256"], options={"verify_signature": False})]:
    the payload, a dict, or a raised exception. *)
Variable jwt_decode : json → result (gmap string json).

Definition M (A : Type) : Type := State World → result A * State World.

#[local] Instance M_ret : MRet M := λ A a s, (Ret a, s).
#[local] Instance M_bind : MBind M := λ A B f c s,
  match c s with
  | (Ret a, s') => f a s'
  | (Raise e, s') => (Raise e, s')
  end.
#[local] Instance M_throw : MThrow exn M := λ A e s, (Raise e, s).

(** An expression without effect on the state. *)
Definition lift {A} (r : result A) : M A := λ s, (r, s).

(** Read the account's fields. *)
Definition self : M MobileAccount := λ s, (Ret (acct s), s).

(** [self._access_token = v] *)
Definition assign_access_token (v : json) : M unit := λ s,
  (Ret tt, {| acct := set_access_token v (acct s); world := world s; sent := sent s |}).

(** [self._refresh_token = v] *)
Definition assign_refresh_token (v : json) : M unit := λ s,
  (Ret tt, {| acct := set_refresh_token v (acct s); world := world s; sent := sent s |}).

(** [await self._session.request(...)] *)
Definition await_request (req : Request) : M ClientResponse := λ s,
  let (r, w) := session_request req (world s) in
  (r, {| acct := acct s; world := w; sent := (sent s ++ [(req, r)])%list |}).

(** [try: c except ClientError: raise APIUnavailable] *)
Definition except_ClientError {A} (c : M A) : M A := λ s,
  match c s with
  | (Raise e, s') => if is_ClientError e then (Raise APIUnavailable, s') else (Raise e, s')
  | r => r
  end.

(** [time.time()] *)
Definition time : M Q := λ s, (Ret (time_time (world s)), s).

(** [MobileAccount._is_access_token_valid] *)
Definition _is_access_token_valid : M bool :=
  a ← self;
  if negb (is_None (_access_token a)) then
    payload ← lift (jwt_decode (_access_token a));
    match payload !! "exp" with
    | None => mret false                       (* "exp" in payload is False *)
    | Some e => t ← time; lift (py_lt t e)
    end
  else mret false.

(** The condition of the [if] that opens [_request]; [and] evaluates its
    operands left to right and stops at the first false one. *)
Definition must_refresh (refresh : bool) : M bool :=
  if negb refresh then
    valid ← _is_access_token_valid;
    if negb valid then
      a ← self; mret (negb (is_None (_refresh_token a)))
    else mret false
  else mret false.

(** The request [_request] hands to the session, with the account as it is
    at that moment. *)
Definition build_request (method path : string) (data : option (gmap string json))
    (a : MobileAccount) : Request :=
  {| req_method := method;
     req_url := api_base +:+ path;
     req_data := data;
     req_headers := if is_None (_access_token a) then None
                    else Some {[ "access-token" := access_token a ]} |}.

(** Lines 66-67 of [_request]: await the refresh coroutine when the
    condition holds. The coroutine is left open here; the knot is tied
    below. *)
Definition refresh_first_with (refresh_coro : M unit) (refresh : bool) : M unit :=
  go ← must_refresh refresh;
  if go : bool then refresh_coro else mret tt.

(** Lines 68-82 of [_request]: the exchange with the session and the
    mapping of its status. *)
Definition send (method path : string) (data : option (gmap string json)) : M ClientResponse :=
  a ← self;
  resp ← await_request (build_request method path data a);
  if status resp =? 401 then mthrow InvalidAuthCredentials
  else
    except_ClientError (lift (raise_for_status resp));;
    mret resp.

(** [MobileAccount._request], over the coroutine it awaits when the token
    must be refreshed. *)
Definition _request_with (refresh_coro : M unit) (method path : string)
    (data : option (gmap string json)) (refresh : bool) : M ClientResponse :=
  refresh_first_with refresh_coro refresh;;
  send method path data.

(** [MobileAccount.refresh]. It calls [_request] with [refresh=True], which
    never awaits [refresh] again (see [refresh_unfold]). *)
Definition refresh : M unit :=
  (* invalidate the current access token *)
  assign_access_token JNull;;
  a ← self;
  resp ← _request_with (mret tt) "post" "refresh"
           (Some {[ "refreshToken" := refresh_token a ]}) true;
  data ← lift (resp_json resp);
  tok ← lift (py_getitem data "accessToken");
  assign_access_token tok;;
  tok' ← lift (py_getitem data "refreshToken");
  assign_refresh_token tok'.

(** Lines 66-67 with [self.refresh] in place. *)
Definition refresh_first (refresh_flag : bool) : M unit :=
  refresh_first_with refresh refresh_flag.

(** [MobileAccount._request] *)
Definition _request (method path : string) (data : option (gmap string json))
    (refresh_flag : bool) : M ClientResponse :=
  _request_with refresh method path data refresh_flag.

(** The body [login] posts. *)
Definition login_data (a : MobileAccount) : gmap string json :=
  {[ "username" := _username a; "password" := _password a;
     "firebaseId" := JStr EmptyString ]}.

(** [MobileAccount.login] *)
Definition login : M unit :=
  a ← self;
  resp ← _request "post" "login" (Some (login_data a)) false;
  data ← lift (resp_json resp);
  tok ← lift (py_getitem data "accessToken");
  assign_access_token tok;;
  tok' ← lift (py_getitem data "refreshToken");
  assign_refresh_token tok'.

(** [MobileAccount.logout] *)
Definition logout : M unit :=
  _request "post" "logout" None false;; mret tt.

(** [MobileAccount.get_units] *)
Definition get_units : M (list Unit) :=
  resp ← _request "get" "units" None false;
  data ← lift (resp_json resp);
  items ← lift (py_getitem data "items");
  its ← lift (py_iter items);
  lift (comprehension unit_of_item its).

(** ** Vocabulary of the properties *)

(** The public coroutines of the account. *)
Inductive call := Login | Logout | Refresh | GetUnits.

#[global] Instance call_eq_dec : EqDecision call.
Proof. solve_decision. Defined.

Definition perform (c : call) : M unit :=
  match c with
  | Login => login
  | Logout => logout
  | Refresh => refresh
  | GetUnits => get_units;; mret tt
  end.

(** The exchanges with the session that running [c] from [s] adds. *)
Definition new_exchanges {A} (c : M A) (s : State World) : list (Request * result ClientResponse) :=
  drop (length (sent s)) (sent (c s).2).

Definition refresh_url : string := api_base +:+ "refresh".

Definition is_refresh_exchange (x : Request * result ClientResponse) : bool :=
  String.eqb (req_url x.1) refresh_url.

(** How many refreshes a run performed: its requests to the refresh
    endpoint. *)
Definition refresh_count (l : list (Request * result ClientResponse)) : nat :=
  length (List.filter is_refresh_exchange l).

(** The request [refresh] issues for an account [a]. *)
Definition refresh_request (a : MobileAccount) : Request :=
  build_request "post" "refresh" (Some {[ "refreshToken" := _refresh_token a ]})
    (set_access_token JNull a).

(** The request a call issues for itself, with the account as it is when
    the request goes out. *)
Definition own_request (c : call) (a : MobileAccount) : Request :=
  match c with
  | Login => build_request "post" "login" (Some (login_data a)) a
  | Logout => build_request "post" "logout" None a
  | Refresh => refresh_request a
  | GetUnits => build_request "get" "units" None a
  end.

(** The state after the session answered [r] to [req], leaving the world
    as [w]. *)
Definition answered (s : State World) (req : Request) (r : result ClientResponse) (w : World) : State World :=
  {| acct := acct s; world := w; sent := (sent s ++ [(req, r)])%list |}.

(** The state once [self._access_token = None] has run. *)
Definition cleared (s : State World) : State World :=
  {| acct := set_access_token JNull (acct s); world := world s; sent := sent s |}.

Definition float_lt (t : Q) (f : pyfloat) : Prop :=
  match f with
  | Finite q => (t < q)%Q
  | Inf neg => neg = false
  | NaN => False
  end.

(** The time [t] is strictly before the expiry [e]. *)
Definition strictly_before (t : Q) (e : json) : Prop :=
  ∃ f, num_value e = Some f ∧ float_lt t f.

(** The access token is present, its payload has an [exp] claim and the
    clock is strictly before it. *)
Definition token_valid (s : State World) : Prop :=
  _access_token (acct s) ≠ JNull ∧
  ∃ payload e, jwt_decode (_access_token (acct s)) = Ret payload ∧
    payload !! "exp" = Some e ∧ strictly_before (time_time (world s)) e.

Definition token_absent (s : State World) : Prop :=
  _access_token (acct s) = JNull.

Definition token_without_exp (s : State World) : Prop :=
  _access_token (acct s) ≠ JNull ∧
  ∃ payload, jwt_decode (_access_token (acct s)) = Ret payload ∧ payload !! "exp" = None.

Definition token_expired (s : State World) : Prop :=
  _access_token (acct s) ≠ JNull ∧
  ∃ payload e f, jwt_decode (_access_token (acct s)) = Ret payload ∧
    payload !! "exp" = Some e ∧ num_value e = Some f ∧
    ¬ float_lt (time_time (world s)) f.

Definition call_method (c : call) : string :=
  match c with GetUnits => "get" | _ => "post" end.

Definition call_path (c : call) : string :=
  match c with
  | Login => "login"
  | Logout => "logout"
  | Refresh => "refresh"
  | GetUnits => "units"
  end.

(** The [data] argument a call passes to [_request]. *)
Definition call_data (c : call) (a : MobileAccount) : option (gmap string json) :=
  match c with
  | Login => Some (login_data a)
  | Refresh => Some {[ "refreshToken" := _refresh_token a ]}
  | Logout | GetUnits => None
  end.

(** What [_request] makes of the session's answer (lines 76-82, and the
    exception of line 68 as it leaves the call). *)
Definition answer_outcome (r : result ClientResponse) : result ClientResponse :=
  match r with
  | Raise e => Raise e
  | Ret resp =>
      if status resp =? 401 then Raise InvalidAuthCredentials
      else if 400 <=? status resp then Raise APIUnavailable
      else Ret resp
  end.

(** Lines 95-97 of [login], which are lines 122-124 of [refresh]: read the
    body and store the two tokens. *)
Definition store_tokens (resp : ClientResponse) : M unit :=
  data ← lift (resp_json resp);
  tok ← lift (py_getitem data "accessToken");
  assign_access_token tok;;
  tok' ← lift (py_getitem data "refreshToken");
  assign_refresh_token tok'.

(** The keys [get_units] reads with [item[...]]. *)
Definition required_keys : list string :=
  ["serialNumber"; "type"; "timezone"; "isOnline"; "dateLastData"; "hasError"].

(** The four endpoints. *)
Definition endpoints : list string :=
  [api_base +:+ "login"; api_base +:+ "logout"; api_base +:+ "refresh"; api_base +:+ "units"].

(** The exception [_request] raises for a response with an error status. *)
Definition status_error (resp : ClientResponse) : exn :=
  if status resp =? 401 then InvalidAuthCredentials else APIUnavailable.

(** ** Unfolding the coroutines *)

Ltac unfold_M :=
  unfold mbind, mret, mthrow, M_bind, M_ret, M_throw, lift, self, time,
    assign_access_token, assign_refresh_token, await_request,
    except_ClientError in *.

Lemma is_None_true v : is_None v = true ↔ v = JNull.
Proof. destruct v; simpl; split; congruence. Qed.

Lemma is_None_false v : is_None v = false ↔ v ≠ JNull.
Proof. destruct v; simpl; split; congruence. Qed.

Lemma float_ltb_lt t f : float_ltb t f = true ↔ float_lt t f.
Proof.
  destruct f as [q|neg|]; simpl.
  - unfold Qltb, Qlt. apply Z.ltb_lt.
  - destruct neg; simpl; split; congruence.
  - split; [discriminate | tauto].
Qed.

(** The validity check never changes the state. *)
Lemma valid_state s : (_is_access_token_valid s).2 = s.
Proof.
  unfold _is_access_token_valid. unfold_M.
  destruct (is_None (_access_token (acct s))); simpl; [done|].
  destruct (jwt_decode _) as [payload|e]; simpl; [|done].
  destruct (payload !! "exp"); simpl; done.
Qed.

(** The session's answer decides what [send] returns. *)
Lemma send_eq method path data s :
  send method path data s =
    let req := build_request method path data (acct s) in
    let (r, w) := session_request req (world s) in
    (answer_outcome r, answered s req r w).
Proof.
  unfold send, answered. unfold_M. simpl.
  destruct (session_request _ _) as [[resp|e] w]; simpl; [|done].
  destruct (status resp =? 401); [done|].
  unfold raise_for_status. destruct (400 <=? status resp); done.
Qed.

(** [_request(..., refresh=True)] is the exchange alone, whatever coroutine
    stands for [refresh]. *)
Lemma _request_with_true coro method path data :
  _request_with coro method path data true = send method path data.
Proof. reflexivity. Qed.

(** [refresh] as the source has it, calling [_request]. *)
Lemma refresh_unfold :
  refresh =
    (assign_access_token JNull;;
     a ← self;
     resp ← _request "post" "refresh" (Some {[ "refreshToken" := refresh_token a ]}) true;
     data ← lift (resp_json resp);
     tok ← lift (py_getitem data "accessToken");
     assign_access_token tok;;
     tok' ← lift (py_getitem data "refreshToken");
     assign_refresh_token tok').
Proof. reflexivity. Qed.

Lemma login_unfold :
  login = (a ← self; resp ← _request "post" "login" (Some (login_data a)) false;
           store_tokens resp).
Proof. reflexivity. Qed.

Lemma refresh_eq s :
  refresh s =
    let req := refresh_request (acct s) in
    let (r, w) := session_request req (world s) in
    match answer_outcome r with
    | Raise e => (Raise e, answered (cleared s) req r w)
    | Ret resp => store_tokens resp (answered (cleared s) req r w)
    end.
Proof.
  unfold refresh, _request_with, refresh_first_with, must_refresh, store_tokens.
  unfold_M. simpl. rewrite send_eq. simpl.
  unfold refresh_request, cleared, answered. simpl.
  destruct (session_request _ _) as [r w].
  destruct (answer_outcome r); reflexivity.
Qed.

(** Storing the tokens talks to nobody. *)
Lemma store_tokens_frame resp s :
  sent (store_tokens resp s).2 = sent s ∧ world (store_tokens resp s).2 = world s.
Proof.
  unfold store_tokens. unfold_M.
  destruct (resp_json resp) as [data|e]; simpl; [|done].
  destruct (py_getitem data "accessToken") as [tok|e]; simpl; [|done].
  destruct (py_getitem data "refreshToken") as [tok'|e]; simpl; done.
Qed.

Lemma store_tokens_ok resp s s' :
  store_tokens resp s = (Ret tt, s') →
  ∃ body, resp_json resp = Ret body ∧
    py_getitem body "accessToken" = Ret (_access_token (acct s')) ∧
    py_getitem body "refreshToken" = Ret (_refresh_token (acct s')).
Proof.
  unfold store_tokens. unfold_M.
  destruct (resp_json resp) as [data|e]; simpl; [|discriminate].
  destruct (py_getitem data "accessToken") as [tok|e] eqn:Ha; simpl; [|discriminate].
  destruct (py_getitem data "refreshToken") as [tok'|e] eqn:Hb; simpl; [|discriminate].
  intros [= <-]. simpl. by exists data.
Qed.

(** A failure while storing leaves the refresh token alone, and the access
    token too unless the failure is the missing ["refreshToken"] key. *)
Lemma store_tokens_fail resp s e s' :
  store_tokens resp s = (Raise e, s') →
  _refresh_token (acct s') = _refresh_token (acct s) ∧
  (e ≠ KeyError "refreshToken" → acct s' = acct s).
Proof.
  unfold store_tokens. unfold_M.
  destruct (resp_json resp) as [data|e0]; simpl; [|by intros [= <- <-]].
  destruct (py_getitem data "accessToken") as [tok|e0] eqn:Ha; simpl; [|by intros [= <- <-]].
  destruct (py_getitem data "refreshToken") as [tok'|e0] eqn:Hb; simpl; [discriminate|].
  intros [= <- <-]. simpl. split; [done|].
  intros Hne. destruct data; simpl in Hb; try discriminate.
  destruct (m !! "refreshToken"); simplify_eq.
Qed.

(** A raise of the validity check is the raise of [_request]. *)
Lemma request_check_raises method path data s e :
  (_is_access_token_valid s).1 = Raise e →
  _request method path data false s = (Raise e, s).
Proof.
  intros H. pose proof (valid_state s) as Hs.
  destruct (_is_access_token_valid s) as [r s0] eqn:Hv. simpl in H, Hs. subst.
  unfold _request, _request_with, refresh_first_with, must_refresh.
  simpl. unfold mbind at 1 2 3, M_bind. rewrite Hv. reflexivity.
Qed.

Lemma new_exchanges_app {A} (c : M A) s l :
  sent (c s).2 = (sent s ++ l)%list → new_exchanges c s = l.
Proof. intros H. unfold new_exchanges. rewrite H. apply drop_app_length. Qed.

Lemma request_split method path data flag s :
  _request method path data flag s =
    match refresh_first flag s with
    | (Ret _, s1) => send method path data s1
    | (Raise e, s1) => (Raise e, s1)
    end.
Proof. reflexivity. Qed.

Lemma send_sent method path data s :
  sent (send method path data s).2 =
    (sent s ++ [(build_request method path data (acct s),
                 (session_request (build_request method path data (acct s)) (world s)).1)])%list
  ∧ acct (send method path data s).2 = acct s.
Proof.
  rewrite send_eq. simpl. by destruct (session_request _ _) as [r w].
Qed.

Lemma refresh_sent s :
  sent (refresh s).2 =
    (sent s ++ [(refresh_request (acct s),
                 (session_request (refresh_request (acct s)) (world s)).1)])%list.
Proof.
  rewrite refresh_eq. simpl. destruct (session_request _ _) as [r w]. simpl.
  destruct (answer_outcome r) as [resp|e]; [|done].
  by rewrite (proj1 (store_tokens_frame resp _)).
Qed.

Lemma store_tokens_credentials resp s :
  _username (acct (store_tokens resp s).2) = _username (acct s) ∧
  _password (acct (store_tokens resp s).2) = _password (acct s).
Proof.
  unfold store_tokens. unfold_M.
  destruct (resp_json resp) as [data|e]; simpl; [|done].
  destruct (py_getitem data "accessToken") as [tok|e]; simpl; [|done].
  destruct (py_getitem data "refreshToken") as [tok'|e]; simpl; done.
Qed.

Lemma refresh_credentials s :
  _username (acct (refresh s).2) = _username (acct s) ∧
  _password (acct (refresh s).2) = _password (acct s).
Proof.
  rewrite refresh_eq. simpl. destruct (session_request _ _) as [r w].
  destruct (answer_outcome r) as [resp|e]; [|done].
  destruct (store_tokens_credentials resp
    (answered (cleared s) (refresh_request (acct s)) r w)) as [-> ->]. done.
Qed.

(** A failed refresh: the refresh token is as before, and the access token
    is [None] unless the body lacked only ["refreshToken"]. *)
Lemma refresh_fail s e s' :
  refresh s = (Raise e, s') →
  _refresh_token (acct s') = _refresh_token (acct s) ∧
  (e ≠ KeyError "refreshToken" → _access_token (acct s') = JNull).
Proof.
  rewrite refresh_eq. simpl. destruct (session_request _ _) as [r w].
  destruct (answer_outcome r) as [resp|e0].
  - intros H. apply store_tokens_fail in H as [H1 H2]. simpl in *.
    split; [done|]. intros Hne. by rewrite (H2 Hne).
  - by intros [= <- <-].
Qed.

(** What a call does after [_request] returned talks to nobody, and a
    failure of [_request] is the failure of the call. *)
Lemma perform_after_request c s :
  c ≠ Refresh →
  let rq := _request (call_method c) (call_path c) (call_data c (acct s)) false s in
  sent (perform c s).2 = sent rq.2 ∧
  (∀ e, rq.1 = Raise e → perform c s = (Raise e, rq.2)).
Proof.
  intros Hc. destruct c; try done; simpl.
  - rewrite login_unfold. unfold_M. simpl.
    destruct (_request _ _ _ _ s) as [[resp|e] s1]; simpl.
    + by rewrite (proj1 (store_tokens_frame resp s1)).
    + split; [done | by intros ? [= <-]].
  - unfold logout. unfold_M.
    destruct (_request _ _ _ _ s) as [[resp|e] s1]; simpl.
    + done.
    + split; [done | by intros ? [= <-]].
  - unfold get_units. unfold_M.
    destruct (_request _ _ _ _ s) as [[resp|e] s1]; simpl.
    + destruct (resp_json resp) as [data|e]; simpl; [|done].
      destruct (py_getitem data "items") as [items|e]; simpl; [|done].
      destruct (py_iter items) as [its|e]; simpl; [|done].
      destruct (comprehension unit_of_item its); simpl; done.
    + split; [done | by intros ? [= <-]].
Qed.

(** How the [if] of [_request] can go: nothing happens, the validity check
    raises, or it is the refresh. *)
Lemma refresh_first_cases flag s :
  refresh_first flag s = (Ret tt, s) ∨
  (∃ e, refresh_first flag s = (Raise e, s)) ∨
  (refresh_first flag s = refresh s ∧ flag = false ∧
   _is_access_token_valid s = (Ret false, s) ∧ _refresh_token (acct s) ≠ JNull).
Proof.
  unfold refresh_first, refresh_first_with, must_refresh.
  destruct flag; simpl; [by left|].
  pose proof (valid_state s) as Hs. unfold_M.
  destruct (_is_access_token_valid s) as [[[]|e] s0] eqn:Hv; simpl in Hs; subst s0; simpl.
  - by left.
  - destruct (is_None (_refresh_token (acct s))) eqn:Hn; simpl; [by left|].
    right; right. apply is_None_false in Hn. done.
  - right; left. by exists e.
Qed.

Lemma answer_outcome_error resp :
  400 ≤ status resp → answer_outcome (Ret resp) = Raise (status_error resp).
Proof.
  intros H. unfold answer_outcome, status_error.
  destruct (status resp =? 401); [done|].
  by rewrite (proj2 (Z.leb_le _ _) H).
Qed.

Lemma refresh_last_error s req resp :
  last (new_exchanges refresh s) = Some (req, Ret resp) →
  400 ≤ status resp →
  (refresh s).1 = Raise (status_error resp).
Proof.
  rewrite (new_exchanges_app refresh s _ (refresh_sent s)). simpl.
  intros [= _ Hr] Hst. rewrite refresh_eq. simpl.
  destruct (session_request _ _) as [r w]. simpl in Hr. subst r.
  by rewrite answer_outcome_error.
Qed.

Lemma send_last_error method path data s req resp :
  last (new_exchanges (send method path data) s) = Some (req, Ret resp) →
  400 ≤ status resp →
  (send method path data s).1 = Raise (status_error resp).
Proof.
  rewrite (new_exchanges_app _ s _ (proj1 (send_sent method path data s))). simpl.
  intros [= _ Hr] Hst. rewrite send_eq. simpl.
  destruct (session_request _ _) as [r w]. simpl in Hr. subst r.
  by rewrite answer_outcome_error.
Qed.

Lemma request_last_error method path data flag s req resp :
  last (new_exchanges (_request method path data flag) s) = Some (req, Ret resp) →
  400 ≤ status resp →
  (_request method path data flag s).1 = Raise (status_error resp).
Proof.
  unfold new_exchanges. rewrite request_split.
  destruct (refresh_first_cases flag s) as [H | [[e H] | (H & _)]]; rewrite H.
  - apply send_last_error.
  - simpl. by rewrite drop_all.
  - pose proof (refresh_sent s) as Hsent.
    pose proof (refresh_last_error s) as Hr. unfold new_exchanges in Hr.
    destruct (refresh s) as [[[]|e] s1]; simpl in *.
    + destruct (send_sent method path data s1) as [Hs _].
      intros Hl Hst. apply send_last_error with (req := req); [|done].
      unfold new_exchanges. rewrite Hs in Hl |- *. rewrite Hsent in Hl.
      rewrite <- app_assoc, drop_app_length in Hl. simpl in Hl.
      by rewrite drop_app_length.
    + intros Hl Hst. specialize (Hr req resp Hl Hst). by simplify_eq.
Qed.

Lemma answer_outcome_ret r resp :
  answer_outcome r = Ret resp → r = Ret resp ∧ status resp < 400.
Proof.
  destruct r as [resp0|e]; simpl; [|discriminate].
  destruct (status resp0 =? 401); [discriminate|].
  destruct (400 <=? status resp0) eqn:H; [discriminate|].
  intros [= ->]. split; [done|]. by apply Z.leb_gt.
Qed.

(** A response that [_request] returns is the session's last answer, to a
    request for the path asked, and its status is below 400. *)
Lemma request_ok method path data flag s resp s1 :
  _request method path data flag s = (Ret resp, s1) →
  (∃ req, last (sent s1) = Some (req, Ret resp) ∧ req_url req = api_base +:+ path) ∧
  status resp < 400.
Proof.
  rewrite request_split. destruct (refresh_first flag s) as [[u|e] s0]; [|discriminate].
  rewrite send_eq. simpl. destruct (session_request _ _) as [r w].
  intros [= Ho <-]. apply answer_outcome_ret in Ho as [-> Hst]. split; [|done].
  eexists. simpl. rewrite last_snoc. split; reflexivity.
Qed.

Lemma refresh_after_request s :
  refresh s =
    match _request "post" "refresh" (call_data Refresh (acct s)) true (cleared s) with
    | (Ret resp, s1) => store_tokens resp s1
    | (Raise e, s1) => (Raise e, s1)
    end.
Proof. reflexivity. Qed.

Lemma login_after_request s :
  login s =
    match _request "post" "login" (call_data Login (acct s)) false s with
    | (Ret resp, s1) => store_tokens resp s1
    | (Raise e, s1) => (Raise e, s1)
    end.
Proof. reflexivity. Qed.

(** The exchanges of [_request] when its [if] does nothing, and when it
    awaits the refresh. *)
Lemma request_trace_direct method path data flag s :
  refresh_first flag s = (Ret tt, s) →
  new_exchanges (_request method path data flag) s =
    [(build_request method path data (acct s),
      (session_request (build_request method path data (acct s)) (world s)).1)]
  ∧ acct (_request method path data flag s).2 = acct s.
Proof.
  intros H. unfold new_exchanges. rewrite request_split, H.
  destruct (send_sent method path data s) as [-> ->].
  by rewrite drop_app_length.
Qed.

Lemma request_trace_refresh method path data flag s :
  refresh_first flag s = refresh s →
  new_exchanges (_request method path data flag) s =
    (refresh_request (acct s), (session_request (refresh_request (acct s)) (world s)).1) ::
    match refresh s with
    | (Ret _, s1) =>
        [(build_request method path data (acct s1),
          (session_request (build_request method path data (acct s1)) (world s1)).1)]
    | (Raise _, _) => []
    end.
Proof.
  intros H. unfold new_exchanges. rewrite request_split, H.
  pose proof (refresh_sent s) as Hsent.
  destruct (refresh s) as [[[]|e] s1]; simpl in *.
  - rewrite (proj1 (send_sent method path data s1)), Hsent.
    by rewrite <- app_assoc, drop_app_length.
  - by rewrite Hsent, drop_app_length.
Qed.

Lemma check_true_no_refresh s :
  _is_access_token_valid s = (Ret true, s) → refresh_first false s = (Ret tt, s).
Proof.
  intros H. unfold refresh_first, refresh_first_with, must_refresh. simpl.
  unfold mbind at 1 2, M_bind. by rewrite H.
Qed.

Lemma check_false_refresh s :
  _is_access_token_valid s = (Ret false, s) → _refresh_token (acct s) ≠ JNull →
  refresh_first false s = refresh s.
Proof.
  intros H Hr. apply is_None_false in Hr.
  unfold refresh_first, refresh_first_with, must_refresh. simpl.
  unfold mbind at 1 2, M_bind. rewrite H. simpl. unfold_M. by rewrite Hr.
Qed.

(** ** The validity check *)

Lemma valid_true_iff s : _is_access_token_valid s = (Ret true, s) ↔ token_valid s.
Proof.
  unfold _is_access_token_valid, token_valid, strictly_before, py_lt. unfold_M.
  destruct (is_None (_access_token (acct s))) eqn:Hn; simpl.
  - apply is_None_true in Hn. split; [discriminate | tauto].
  - apply is_None_false in Hn.
    destruct (jwt_decode _) as [payload|err]; simpl.
    + destruct (payload !! "exp") as [e|] eqn:He; simpl.
      * destruct (num_value e) as [f|] eqn:Hf.
        -- split.
           ++ intros H. split; [done|]. exists payload, e. repeat split; try done.
              exists f. split; [done|]. apply float_ltb_lt. congruence.
           ++ intros (_ & p' & e' & Hp & He' & f' & Hf' & Hlt).
              simplify_eq. apply float_ltb_lt in Hlt. by rewrite Hlt.
        -- split; [discriminate|].
           intros (_ & p' & e' & Hp & He' & f' & Hf' & _). simplify_eq.
      * split; [discriminate|].
        intros (_ & p' & e' & Hp & He' & _). simplify_eq.
    + split; [discriminate|].
      intros (_ & p' & e' & Hp & _). simplify_eq.
Qed.

Lemma valid_false_iff s :
  _is_access_token_valid s = (Ret false, s) ↔
  token_absent s ∨ token_without_exp s ∨ token_expired s.
Proof.
  unfold _is_access_token_valid, token_absent, token_without_exp, token_expired, py_lt.
  unfold_M.
  destruct (is_None (_access_token (acct s))) eqn:Hn; simpl.
  - apply is_None_true in Hn. split; [by left | done].
  - apply is_None_false in Hn.
    destruct (jwt_decode _) as [payload|err]; simpl.
    + destruct (payload !! "exp") as [e|] eqn:He; simpl.
      * destruct (num_value e) as [f|] eqn:Hf.
        -- split.
           ++ intros H. right; right. split; [done|]. exists payload, e, f.
              repeat split; try done. rewrite <- float_ltb_lt. intros Hlt.
              rewrite Hlt in H. discriminate.
           ++ intros [H | [(_ & p' & Hp & He') | (_ & p' & e' & f' & Hp & He' & Hf' & Hlt)]];
                [done | simplify_eq | simplify_eq].
              destruct (float_ltb _ _) eqn:E; [|done].
              apply float_ltb_lt in E. contradiction.
        -- split; [discriminate|].
           intros [H | [(_ & p' & Hp & He') | (_ & p' & e' & f' & Hp & He' & Hf' & Hlt)]];
             [done | simplify_eq | simplify_eq].
      * split; [|done]. intros _. right; left. split; [done|]. by exists payload.
    + split; [discriminate|].
      intros [H | [(_ & p' & Hp & He') | (_ & p' & e' & f' & Hp & He' & Hf' & Hlt)]];
        [done | simplify_eq | simplify_eq].
Qed.

(** C4. The validity check returns true exactly when the access token is
    present, its decoded payload has an [exp] claim and the current time is
    strictly before that expiry; with no access token it returns false. *)
Theorem access_token_valid_iff (s : State World) :
  (_is_access_token_valid s = (Ret true, s) ↔ token_valid s) ∧
  (token_absent s → _is_access_token_valid s = (Ret false, s)).
Proof.
  split; [apply valid_true_iff|].
  intros H. apply valid_false_iff. by left.
Qed.

(** ** The refresh before a request *)

Lemma own_request_not_refresh c a r :
  c ≠ Refresh → is_refresh_exchange (own_request c a, r) = false.
Proof. by destruct c. Qed.

Lemma own_request_eq c a :
  c ≠ Refresh →
  own_request c a = build_request (call_method c) (call_path c) (call_data c a) a.
Proof. by destruct c. Qed.

Lemma call_data_credentials c a a' :
  c ≠ Refresh → _username a' = _username a → _password a' = _password a →
  call_data c a' = call_data c a.
Proof.
  intros Hc Hu Hp. destruct c; try done. simpl. unfold login_data. by rewrite Hu, Hp.
Qed.

(** C1. For [login], [logout] and [get_units]: with a valid access token
    (present, with an [exp] claim the clock is strictly before) the call
    makes its own request and no refresh. With an access token that is
    absent, expired or without [exp], and a refresh token present, the call
    makes exactly one refresh, as its first exchange; its own request goes
    out only after the refresh returned, from the account as the refresh
    left it, and not at all when the refresh failed. *)
Theorem refresh_exactly_when_needed (c : call) (s : State World) :
  c ≠ Refresh →
  (token_valid s →
     refresh_count (new_exchanges (perform c) s) = 0%nat ∧
     ∃ r, new_exchanges (perform c) s = [(own_request c (acct s), r)]) ∧
  (token_absent s ∨ token_without_exp s ∨ token_expired s →
   _refresh_token (acct s) ≠ JNull →
     refresh_count (new_exchanges (perform c) s) = 1%nat ∧
     ∃ r1 rest,
       new_exchanges (perform c) s = (refresh_request (acct s), r1) :: rest ∧
       match refresh s with
       | (Ret _, s1) => ∃ r2, rest = [(own_request c (acct s1), r2)]
       | (Raise e, s1) => rest = [] ∧ perform c s = (Raise e, s1)
       end).
Proof.
  intros Hc. destruct (perform_after_request c s Hc) as [Hsent Hfail]. simpl in *.
  assert (Hnew : new_exchanges (perform c) s =
    new_exchanges (_request (call_method c) (call_path c) (call_data c (acct s)) false) s).
  { unfold new_exchanges. by rewrite Hsent. }
  rewrite Hnew. split.
  - intros Hv. apply valid_true_iff, check_true_no_refresh in Hv.
    destruct (request_trace_direct (call_method c) (call_path c)
                (call_data c (acct s)) false s Hv) as [-> _].
    rewrite <- own_request_eq by done. split; [|by eexists].
    unfold refresh_count. simpl. by rewrite own_request_not_refresh.
  - intros Hstale Hr. apply valid_false_iff in Hstale.
    pose proof (check_false_refresh s Hstale Hr) as Hrf.
    rewrite (request_trace_refresh _ _ _ _ _ Hrf).
    pose proof (refresh_credentials s) as [Hu Hp].
    pose proof (request_split (call_method c) (call_path c) (call_data c (acct s)) false s) as Hrq.
    rewrite Hrf in Hrq.
    destruct (refresh s) as [[[]|e] s1] eqn:Href; simpl in Hu, Hp.
    + rewrite <- (call_data_credentials c (acct s) (acct s1)) by done.
      rewrite <- own_request_eq by done. split.
      * unfold refresh_count. simpl. by rewrite own_request_not_refresh.
      * eexists _, _. split; [reflexivity|]. by eexists.
    + split; [done|]. eexists _, _. split; [reflexivity|]. split; [done|].
      rewrite (Hfail e); by rewrite Hrq.
Qed.

(** ** The tokens the account holds *)

(** C5. When [login] or [refresh] returns, the account's access token is
    the ["accessToken"] value and its refresh token the ["refreshToken"]
    value of the JSON body of the response to the login or refresh
    request. *)
Theorem tokens_equal_response_body (c : call) (s s' : State World) :
  c = Login ∨ c = Refresh →
  perform c s = (Ret tt, s') →
  ∃ req resp body,
    last (sent s') = Some (req, Ret resp) ∧
    req_url req = api_base +:+ call_path c ∧
    resp_json resp = Ret body ∧
    py_getitem body "accessToken" = Ret (_access_token (acct s')) ∧
    py_getitem body "refreshToken" = Ret (_refresh_token (acct s')).
Proof.
  intros Hc Hrun.
  assert (∃ s0 flag resp s1,
    _request "post" (call_path c) (call_data c (acct s)) flag s0 = (Ret resp, s1) ∧
    store_tokens resp s1 = (Ret tt, s')) as (s0 & flag & resp & s1 & Hrq & Hst).
  { destruct Hc as [-> | ->]; simpl in Hrun.
    - rewrite login_after_request in Hrun.
      destruct (_request _ _ _ _ s) as [[resp|e] s1] eqn:Hrq; [|discriminate]. eauto 6.
    - rewrite refresh_after_request in Hrun.
      destruct (_request _ _ _ _ (cleared s)) as [[resp|e] s1] eqn:Hrq; [|discriminate].
      eauto 6. }
  apply request_ok in Hrq as [(req & Hlast & Hurl) _].
  destruct (store_tokens_frame resp s1) as [Hsent _]. rewrite Hst in Hsent. simpl in Hsent.
  apply store_tokens_ok in Hst as (body & Hb & Ha & Hr).
  exists req, resp, body. by rewrite Hsent.
Qed.

(** C8. A [logout] that returns, and during which no refresh was made,
    leaves the access token and the refresh token of the account as they
    were. *)
Theorem logout_keeps_tokens (s s' : State World) :
  logout s = (Ret tt, s') →
  refresh_count (new_exchanges logout s) = 0%nat →
  _access_token (acct s') = _access_token (acct s) ∧
  _refresh_token (acct s') = _refresh_token (acct s).
Proof.
  intros Hrun Hcount.
  assert (Hlog : logout s =
    match _request "post" "logout" None false s with
    | (Ret _, s1) => (Ret tt, s1)
    | (Raise e, s1) => (Raise e, s1)
    end) by reflexivity.
  assert (Hnew : new_exchanges logout s = new_exchanges (_request "post" "logout" None false) s).
  { unfold new_exchanges. rewrite Hlog. by destruct (_request _ _ _ _ s) as [[?|?] ?]. }
  rewrite Hnew in Hcount. rewrite Hrun in Hlog.
  destruct (refresh_first_cases false s) as [H | [[e H] | (H & _)]].
  - destruct (request_trace_direct "post" "logout" None false s H) as [_ Hacct].
    destruct (_request _ _ _ _ s) as [[resp|e] s1]; simplify_eq. simpl in Hacct.
    by rewrite Hacct.
  - rewrite request_split, H in Hlog. discriminate.
  - rewrite (request_trace_refresh _ _ _ _ _ H) in Hcount. discriminate.
Qed.

(** ** Units *)

(** *** [int] on decimal numerals

    [int] reads a string of ASCII digits as the number the standard
    library's decimal numerals give it. *)

Lemma bytes_of_uint_ascii d :
  Forall (λ b, (48 <= b <= 57)%N)
    (bytes_of_string (DecimalString.NilEmpty.string_of_uint d)).
Proof.
  induction d; simpl; constructor; try done; unfold bytes_of_string in *; simpl; lia.
Qed.

Lemma code_points_ascii l :
  Forall (λ b, (b < 128)%N) l → code_points l = Some l.
Proof.
  induction 1 as [|b l Hb _ IH]; [done|]. simpl.
  apply N.ltb_lt in Hb. by rewrite Hb, IH.
Qed.

Lemma transform_ascii l :
  Forall (λ b, (b < 128)%N) l → transform_decimal_and_space l = l.
Proof.
  intros H. unfold transform_decimal_and_space.
  assert (forallb (λ c, (c <? 128)%N) l = true) as ->; [|done].
  apply forallb_forall. intros b Hb. apply N.ltb_lt.
  rewrite Forall_forall in H. apply H. by apply list_elem_of_In.
Qed.

Lemma scan_digits_uint d d0 n any :
  any = true ∨ d ≠ Decimal.Nil →
  scan_digits (Z.of_N (DecimalPos.Unsigned.of_lu d0)) n false any
    (bytes_of_string (DecimalString.NilEmpty.string_of_uint d)) =
  Some (Z.of_N (DecimalPos.Unsigned.of_lu (Decimal.revapp d d0)),
        (n + Decimal.nb_digits d)%nat, []).
Proof.
  revert d0 n any.
  induction d as [|d IH|d IH|d IH|d IH|d IH|d IH|d IH|d IH|d IH|d IH];
    intros d0 n any Hany;
    [destruct Hany as [-> | H]; [|done]; simpl; by rewrite Nat.add_0_r | ..];
    unfold bytes_of_string in *; simpl;
    replace (n + S (Decimal.nb_digits d))%nat
      with (S n + Decimal.nb_digits d)%nat by lia;
    match goal with
    | |- _ = Some (Z.of_N (DecimalPos.Unsigned.of_lu (Decimal.revapp _ ?d1)), _, _) =>
        rewrite <- (IH d1 (S n) true (or_introl eq_refl))
    end;
    f_equal; simpl; lia.
Qed.

Lemma digit_limit n :
  ((max_str_digits_threshold <? n)%nat && (0 <? int_max_str_digits)%nat
   && (int_max_str_digits <? n)%nat) = (int_max_str_digits <? n)%nat.
Proof.
  destruct (Nat.ltb_spec int_max_str_digits n) as [H|H].
  - assert ((max_str_digits_threshold <? n)%nat = true) as ->.
    { apply Nat.ltb_lt. unfold max_str_digits_threshold, int_max_str_digits in *. lia. }
    reflexivity.
  - by rewrite andb_false_r.
Qed.

(** [PyLong_FromString] on a string that starts with a digit, and on one
    that starts with a minus sign. *)
Lemma PyLong_FromString_digit b l :
  (48 <= b <= 57)%N →
  PyLong_FromString (b :: l) =
    match scan_digits 0 0 false false (b :: l) with
    | None => Raise ValueError
    | Some (value, digits, rest) =>
        match skip_spaces rest with
        | _ :: _ => Raise ValueError
        | [] => if (int_max_str_digits <? digits)%nat then Raise ValueError
                else Ret value
        end
    end.
Proof.
  intros Hb. unfold PyLong_FromString.
  assert (Py_ISSPACE b = false) as Hsp.
  { unfold Py_ISSPACE. apply orb_false_iff. split.
    - apply andb_false_iff. right. apply N.leb_gt. lia.
    - apply N.eqb_neq. lia. }
  assert ((b =? 43)%N = false) as H43 by (apply N.eqb_neq; lia).
  assert ((b =? 45)%N = false) as H45 by (apply N.eqb_neq; lia).
  cbn [skip_spaces]. rewrite Hsp, H43, H45.
  destruct (scan_digits 0 0 false false (b :: l)) as [[[value digits] rest]|]; [|done].
  destruct (skip_spaces rest); [|done].
  rewrite digit_limit. destruct (int_max_str_digits <? digits)%nat; [done|].
  f_equal. lia.
Qed.

Lemma PyLong_FromString_minus l :
  PyLong_FromString (45%N :: l) =
    match scan_digits 0 0 false false l with
    | None => Raise ValueError
    | Some (value, digits, rest) =>
        match skip_spaces rest with
        | _ :: _ => Raise ValueError
        | [] => if (int_max_str_digits <? digits)%nat then Raise ValueError
                else Ret (- value)
        end
    end.
Proof.
  unfold PyLong_FromString. cbn [skip_spaces].
  assert (Py_ISSPACE 45 = false) as -> by reflexivity.
  assert ((45 =? 43)%N = false) as -> by reflexivity.
  assert ((45 =? 45)%N = true) as -> by reflexivity.
  cbv iota beta.
  destruct (scan_digits 0 0 false false l) as [[[value digits] rest]|]; [|done].
  destruct (skip_spaces rest); [|done].
  rewrite digit_limit. destruct (int_max_str_digits <? digits)%nat; [done|].
  f_equal; lia.
Qed.

(** [int] of a decimal numeral of the standard library: a [ValueError]
    without digits or with more than 4300 of them, and else the number the
    numeral denotes. *)
Lemma int_of_string_uint d :
  d ≠ Decimal.Nil →
  int_of_string (DecimalString.NilEmpty.string_of_uint d) =
    if (int_max_str_digits <? Decimal.nb_digits d)%nat then Raise ValueError
    else Ret (Z.of_uint d).
Proof.
  intros Hne. unfold int_of_string.
  pose proof (bytes_of_uint_ascii d) as Hd.
  assert (Hascii : Forall (λ b, (b < 128)%N)
            (bytes_of_string (DecimalString.NilEmpty.string_of_uint d))).
  { eapply Forall_impl; [exact Hd|]. simpl. intros b Hb. lia. }
  rewrite (code_points_ascii _ Hascii), (transform_ascii _ Hascii).
  pose proof (scan_digits_uint d Decimal.Nil 0 false (or_intror Hne)) as Hscan.
  change (Z.of_N (DecimalPos.Unsigned.of_lu Decimal.Nil)) with 0 in Hscan.
  destruct (bytes_of_string (DecimalString.NilEmpty.string_of_uint d)) as [|b l] eqn:Hl.
  { simpl in Hscan. discriminate. }
  apply Forall_cons in Hd as [Hb _].
  rewrite (PyLong_FromString_digit b l Hb), Hscan. simpl skip_spaces. cbv iota.
  rewrite Nat.add_0_l.
  destruct (int_max_str_digits <? Decimal.nb_digits d)%nat; [done|].
  f_equal. unfold Z.of_uint. by rewrite DecimalPos.Unsigned.of_uint_alt.
Qed.

Lemma int_of_string_int d :
  let u := match d with Decimal.Pos u | Decimal.Neg u => u end in
  u ≠ Decimal.Nil →
  int_of_string (DecimalString.NilEmpty.string_of_int d) =
    if (int_max_str_digits <? Decimal.nb_digits u)%nat then Raise ValueError
    else Ret (Z.of_int d).
Proof.
  destruct d as [u|u]; [apply int_of_string_uint|]. simpl. intros Hne.
  unfold int_of_string.
  pose proof (bytes_of_uint_ascii u) as Hd.
  assert (Hascii : Forall (λ b, (b < 128)%N)
            (bytes_of_string (String "-" (DecimalString.NilEmpty.string_of_uint u)))).
  { unfold bytes_of_string in *. simpl. constructor; [lia|].
    eapply Forall_impl; [exact Hd|]. simpl. intros b Hb. lia. }
  rewrite (code_points_ascii _ Hascii), (transform_ascii _ Hascii).
  change (bytes_of_string (String "-" (DecimalString.NilEmpty.string_of_uint u)))
    with (45%N :: bytes_of_string (DecimalString.NilEmpty.string_of_uint u)).
  rewrite PyLong_FromString_minus.
  pose proof (scan_digits_uint u Decimal.Nil 0 false (or_intror Hne)) as Hscan.
  change (Z.of_N (DecimalPos.Unsigned.of_lu Decimal.Nil)) with 0 in Hscan.
  rewrite Hscan. simpl skip_spaces. cbv iota.
  rewrite Nat.add_0_l.
  destruct (int_max_str_digits <? Decimal.nb_digits u)%nat; [done|].
  f_equal. unfold Z.of_uint. by rewrite DecimalPos.Unsigned.of_uint_alt.
Qed.

Lemma int_of_string_int_value d n :
  int_of_string (DecimalString.NilEmpty.string_of_int d) = Ret n → n = Z.of_int d.
Proof.
  assert (Hnil : ∀ u, u = Decimal.Nil ∨ u ≠ Decimal.Nil) by (intros []; eauto).
  pose proof (int_of_string_int d) as H. simpl in H.
  destruct d as [u|u]; destruct (Hnil u) as [-> | Hne]; try discriminate;
    rewrite (H Hne);
    destruct (int_max_str_digits <? Decimal.nb_digits u)%nat; congruence.
Qed.

Lemma comprehension_spec {A B} (f : A → result B) (l : list A) (ys : list B) :
  comprehension f l = Ret ys →
  length ys = length l ∧
  ∀ i x, l !! i = Some x → ∃ y, ys !! i = Some y ∧ f x = Ret y.
Proof.
  revert ys. induction l as [|x l IH]; intros ys; simpl.
  - intros [= <-]. split; [done|]. intros i x. by rewrite lookup_nil.
  - unfold mbind, result_bind, mret, result_ret.
    destruct (f x) as [y|e] eqn:Hy; [|discriminate].
    destruct (comprehension f l) as [ys'|e]; [|discriminate].
    intros [= <-]. destruct (IH ys' eq_refl) as [Hlen Hnth]. split.
    + simpl. by rewrite Hlen.
    + intros [|i] x'; simpl.
      * intros [= <-]. by exists y.
      * apply Hnth.
Qed.

Lemma py_getitem_ret d k v :
  py_getitem d k = Ret v → ∃ m, d = JObj m ∧ m !! k = Some v.
Proof.
  destruct d; simpl; try discriminate.
  destruct (m !! k) eqn:H; [|discriminate]. intros [= <-]. by exists m.
Qed.

Lemma unit_of_item_fields item u :
  unit_of_item item = Ret u →
  ∃ m sn, item = JObj m ∧
    m !! "serialNumber" = Some sn ∧ py_int sn = Ret (unit_serial_number u) ∧
    m !! "type" = Some (unit_type u) ∧
    unit_name u = default JNull (m !! "name") ∧
    unit_notes u = default JNull (m !! "notes") ∧
    m !! "timezone" = Some (unit_timezone u) ∧
    m !! "isOnline" = Some (unit_is_online u) ∧
    m !! "dateLastData" = Some (unit_date_last_data u) ∧
    m !! "hasError" = Some (unit_has_error u).
Proof.
  unfold unit_of_item, mbind, result_bind, mret, result_ret.
  destruct (py_getitem item "serialNumber") as [sn|e] eqn:Hsn; [|discriminate].
  apply py_getitem_ret in Hsn as (m & -> & Hsn). simpl.
  destruct (py_int sn) as [n|e] eqn:Hn; [|discriminate].
  destruct (m !! "type") as [ty|] eqn:Hty; [|discriminate].
  destruct (m !! "timezone") as [tz|] eqn:Htz; [|discriminate].
  destruct (m !! "isOnline") as [on|] eqn:Hon; [|discriminate].
  destruct (m !! "dateLastData") as [dl|] eqn:Hdl; [|discriminate].
  destruct (m !! "hasError") as [he|] eqn:Hhe; [|discriminate].
  intros [= <-]. simpl. exists m, sn. by rewrite Hty.
Qed.

(** C9. [get_units] makes one [Unit] of each element of the ["items"] array
    of the body, in order. The serial number is [int] of ["serialNumber"]:
    the number itself when the value is an integer, and the number a
    decimal numeral denotes when the value is that numeral as a string.
    The name and the notes are [None] when their key is absent, and the
    other fields are the item's values. On the single-item body of the
    example it returns one unit, with serial number 123 and without name
    and notes. *)
Theorem get_units_maps_items (s s1 : State World) (resp : ClientResponse) :
  _request "get" "units" None false s = (Ret resp, s1) →
  (∀ body items,
     resp_json resp = Ret (JObj body) → body !! "items" = Some (JArr items) →
     get_units s = (comprehension unit_of_item items, s1) ∧
     ∀ units, comprehension unit_of_item items = Ret units →
       length units = length items ∧
       ∀ i item, items !! i = Some item →
         ∃ u m sn, units !! i = Some u ∧ item = JObj m ∧
           m !! "serialNumber" = Some sn ∧ py_int sn = Ret (unit_serial_number u) ∧
           (∀ z, sn = JInt z → unit_serial_number u = z) ∧
           (∀ d, sn = JStr (DecimalString.NilEmpty.string_of_int d) →
              unit_serial_number u = Z.of_int d) ∧
           m !! "type" = Some (unit_type u) ∧
           unit_name u = default JNull (m !! "name") ∧
           unit_notes u = default JNull (m !! "notes") ∧
           m !! "timezone" = Some (unit_timezone u) ∧
           m !! "isOnline" = Some (unit_is_online u) ∧
           m !! "dateLastData" = Some (unit_date_last_data u) ∧
           m !! "hasError" = Some (unit_has_error u)) ∧
  (resp_json resp = Ret example_units_body →
     get_units s = (Ret [example_unit], s1)).
Proof.
  intros Hrq.
  assert (Hgen : ∀ body items,
    resp_json resp = Ret (JObj body) → body !! "items" = Some (JArr items) →
    get_units s = (comprehension unit_of_item items, s1)).
  { intros body items Hb Hi. unfold get_units. unfold_M. rewrite Hrq, Hb. simpl.
    rewrite Hi. simpl. by destruct (comprehension unit_of_item items). }
  split.
  - intros body items Hb Hi. split; [by eapply Hgen|].
    intros units Hu. apply comprehension_spec in Hu as [Hlen Hnth].
    split; [done|]. intros i item Hitem.
    destruct (Hnth i item Hitem) as (u & Hu & Hf).
    apply unit_of_item_fields in Hf
      as (m & sn & -> & Hsn & Hint & Hty & Hnm & Hnt & Htz & Hon & Hdl & Hhe).
    exists u, m, sn. repeat split; try done.
    + intros z ->. simpl in Hint. congruence.
    + intros d ->. simpl in Hint. by apply int_of_string_int_value.
  - intros Hb. by rewrite (Hgen _ [example_item] Hb eq_refl).
Qed.

(** ** Refreshing *)

(** C6. [refresh] clears the access token before it talks to the session:
    its request is made by [_request] running on the account with the
    token set to [None], and that one request carries no [access-token]
    header. Every request of
    [_request] carries that header exactly when the account holds an access
    token at the moment the request goes out, and has no headers at all
    otherwise. *)
Theorem refresh_request_has_no_access_token (s : State World) :
  (_access_token (acct (cleared s)) = JNull ∧
   refresh s =
     match _request "post" "refresh"
             (Some {[ "refreshToken" := _refresh_token (acct s) ]}) true (cleared s) with
     | (Ret resp, s1) => store_tokens resp s1
     | (Raise e, s1) => (Raise e, s1)
     end) ∧
  (∃ r, new_exchanges refresh s =
          [({| req_method := "post"; req_url := refresh_url;
               req_data := Some {[ "refreshToken" := _refresh_token (acct s) ]};
               req_headers := None |}, r)]) ∧
  (∀ method path data flag s1,
     refresh_first flag s = (Ret tt, s1) →
     ∃ r, sent (_request method path data flag s).2 =
       (sent s1 ++
        [({| req_method := method; req_url := api_base +:+ path; req_data := data;
             req_headers :=
               if is_None (_access_token (acct s1)) then None
               else Some {[ "access-token" := _access_token (acct s1) ]} |}, r)])%list).
Proof.
  split; [split; reflexivity|]. split.
  - eexists. apply new_exchanges_app. rewrite refresh_sent. reflexivity.
  - intros method path data flag s1 H. rewrite request_split, H.
    eexists. apply (proj1 (send_sent method path data s1)).
Qed.

(** C10. When [refresh] fails with a 401, another HTTP error or a failure
    of the transport, the account is left without access token (the one
    cleared at the start is not put back) and with the refresh token it
    had. *)
Theorem failed_refresh_leaves_no_access_token (s s' : State World) (e : exn) :
  refresh s = (Raise e, s') →
  e = InvalidAuthCredentials ∨ e = APIUnavailable ∨
    (session_request (refresh_request (acct s)) (world s)).1 = Raise e →
  _access_token (acct s') = JNull ∧
  _refresh_token (acct s') = _refresh_token (acct s).
Proof.
  intros H Hkind. destruct (refresh_fail s e s' H) as [Hr Ha]. split; [|done].
  destruct Hkind as [-> | [-> | Ht]]; [by apply Ha | by apply Ha |].
  revert H. rewrite refresh_eq. simpl.
  destruct (session_request _ _) as [r w]. simpl in Ht. subst r. simpl.
  by intros [= <-].
Qed.

(** ** Failures *)

(** An exception of [session.request] leaves [_request] as it is: line 68
    stands outside the [try]. *)
Lemma transport_exception_propagates method path data flag s s1 e w :
  refresh_first flag s = (Ret tt, s1) →
  session_request (build_request method path data (acct s1)) (world s1) = (Raise e, w) →
  _request method path data flag s =
    (Raise e, answered s1 (build_request method path data (acct s1)) (Raise e) w).
Proof.
  intros H Hs. rewrite request_split, H, send_eq. simpl. by rewrite Hs.
Qed.

(** C2. In [_request], for every body: a response with status 401 raises
    [InvalidAuthCredentials], any other status from 400 up raises
    [APIUnavailable], and a status below 400 returns the response itself to
    the caller. So each of [login], [logout], [refresh] and [get_units]
    fails with [InvalidAuthCredentials] when the last response it received
    has status 401, and with [APIUnavailable] when that status is another
    one from 400 up. *)
Theorem status_decides_failure :
  (∀ method path data flag (s s1 : State World) resp w,
     refresh_first flag s = (Ret tt, s1) →
     session_request (build_request method path data (acct s1)) (world s1) = (Ret resp, w) →
     let s2 := answered s1 (build_request method path data (acct s1)) (Ret resp) w in
     (status resp = 401 →
        _request method path data flag s = (Raise InvalidAuthCredentials, s2)) ∧
     (status resp ≠ 401 → 400 ≤ status resp →
        _request method path data flag s = (Raise APIUnavailable, s2)) ∧
     (status resp < 400 →
        _request method path data flag s = (Ret resp, s2))) ∧
  (∀ c (s : State World) req resp,
     last (new_exchanges (perform c) s) = Some (req, Ret resp) →
     (status resp = 401 → (perform c s).1 = Raise InvalidAuthCredentials) ∧
     (status resp ≠ 401 → 400 ≤ status resp → (perform c s).1 = Raise APIUnavailable)).
Proof.
  split.
  - intros method path data flag s s1 resp w H Hs s2.
    rewrite request_split, H, send_eq. simpl. rewrite Hs. fold s2. simpl.
    repeat split.
    + intros ->. reflexivity.
    + intros Hne Hle. apply Z.eqb_neq in Hne. apply Z.leb_le in Hle.
      by rewrite Hne, Hle.
    + intros Hlt.
      assert ((status resp =? 401) = false) as -> by (apply Z.eqb_neq; lia).
      assert ((400 <=? status resp) = false) as -> by (apply Z.leb_gt; lia).
      reflexivity.
  - intros c s req resp Hl.
    assert (Herr : 400 ≤ status resp → (perform c s).1 = Raise (status_error resp)).
    { intros Hst. destruct (decide (c = Refresh)) as [-> | Hc].
      - by apply refresh_last_error with (req := req).
      - destruct (perform_after_request c s Hc) as [Hsent Hfail]. simpl in *.
        unfold new_exchanges in Hl. rewrite Hsent in Hl.
        apply request_last_error in Hl; [|done].
        by rewrite (Hfail _ Hl). }
    unfold status_error in Herr. split.
    + intros H401. rewrite Herr by lia. by rewrite H401.
    + intros Hne Hle. rewrite Herr by done.
      apply Z.eqb_neq in Hne. by rewrite Hne.
Qed.

(** C7. A stored access token that the JWT decoder rejects makes the
    validity check raise the decoder's exception unchanged, and with it
    [login], [logout] and [get_units], before any request is made. *)
Theorem decode_error_propagates (s : State World) (e : exn) :
  _access_token (acct s) ≠ JNull →
  jwt_decode (_access_token (acct s)) = Raise e →
  _is_access_token_valid s = (Raise e, s) ∧
  ∀ c, c ≠ Refresh → perform c s = (Raise e, s).
Proof.
  intros Hn Hd. apply is_None_false in Hn.
  assert (Hv : _is_access_token_valid s = (Raise e, s)).
  { unfold _is_access_token_valid. unfold_M. by rewrite Hn, Hd. }
  split; [done|]. intros c Hc.
  destruct (perform_after_request c s Hc) as [_ Hp].
  simpl in Hp. rewrite (Hp e).
  - by rewrite (request_check_raises _ _ _ s e); [|rewrite Hv].
  - by rewrite (request_check_raises _ _ _ s e); [|rewrite Hv].
Qed.

(** ** The shape of a call *)

(** What [login], [logout] and [get_units] exchange with the session: nothing
    when the validity check raises, their own request when no refresh is
    due, and otherwise the refresh followed, if it returned, by their own
    request. *)
Lemma call_trace c s :
  c ≠ Refresh →
  (new_exchanges (perform c) s = [] ∧
   ∃ e, (_is_access_token_valid s).1 = Raise e ∧ perform c s = (Raise e, s)) ∨
  (refresh_first false s = (Ret tt, s) ∧
   new_exchanges (perform c) s =
     [(own_request c (acct s), (session_request (own_request c (acct s)) (world s)).1)]) ∨
  (_is_access_token_valid s = (Ret false, s) ∧ _refresh_token (acct s) ≠ JNull ∧
   new_exchanges (perform c) s =
     (refresh_request (acct s), (session_request (refresh_request (acct s)) (world s)).1) ::
     match refresh s with
     | (Ret _, s1) =>
         [(own_request c (acct s1), (session_request (own_request c (acct s1)) (world s1)).1)]
     | (Raise _, _) => []
     end).
Proof.
  intros Hc. destruct (perform_after_request c s Hc) as [Hsent Hfail]. simpl in *.
  assert (Hnew : new_exchanges (perform c) s =
    new_exchanges (_request (call_method c) (call_path c) (call_data c (acct s)) false) s).
  { unfold new_exchanges. by rewrite Hsent. }
  rewrite Hnew.
  destruct (refresh_first_cases false s) as [H | [[e H] | (H & _ & Hv & Hr)]].
  - right; left. split; [done|].
    rewrite (proj1 (request_trace_direct _ _ _ _ _ H)).
    by rewrite <- own_request_eq.
  - left.
    assert (Hv : (_is_access_token_valid s).1 = Raise e).
    { revert H. unfold refresh_first, refresh_first_with, must_refresh. simpl.
      pose proof (valid_state s) as Hs. unfold_M.
      destruct (_is_access_token_valid s) as [[[]|e0] s0]; simpl in *; subst s0.
      - discriminate.
      - destruct (is_None (_refresh_token (acct s))); simpl.
        + discriminate.
        + intros Href. pose proof (refresh_sent s) as Hlen. rewrite Href in Hlen.
          simpl in Hlen. apply (f_equal length) in Hlen.
          rewrite length_app in Hlen. simpl in Hlen. lia.
      - by intros [= ->]. }
    pose proof (request_check_raises (call_method c) (call_path c)
                  (call_data c (acct s)) s e Hv) as Hrq.
    split.
    + unfold new_exchanges. rewrite Hrq. simpl. by rewrite drop_all.
    + exists e. split; [done|]. rewrite (Hfail e); by rewrite Hrq.
  - right; right. split; [done|]. split; [done|].
    rewrite (request_trace_refresh _ _ _ _ _ H).
    pose proof (refresh_credentials s) as [Hu Hp].
    destruct (refresh s) as [[[]|e] s1]; simpl in *; [|done].
    rewrite <- (call_data_credentials c (acct s) (acct s1)) by done.
    by rewrite <- own_request_eq.
Qed.

Lemma refresh_trace s :
  new_exchanges refresh s =
    [(refresh_request (acct s), (session_request (refresh_request (acct s)) (world s)).1)].
Proof. apply new_exchanges_app, refresh_sent. Qed.

(** ** What a request can raise *)

(** X1. A failure of [_request(..., refresh=True)] has one of three causes:
    the session raised that very exception, or it answered 401 and the
    exception is [InvalidAuthCredentials], or it answered another status
    from 400 up and the exception is [APIUnavailable]. The
    [ClientResponseError] of [raise_for_status] never leaves the call, and
    the account is as before. *)
Theorem request_failure_causes method path data (s s' : State World) (e : exn) :
  _request method path data true s = (Raise e, s') →
  acct s' = acct s ∧
  ((session_request (build_request method path data (acct s)) (world s)).1 = Raise e ∨
   (∃ resp,
      (session_request (build_request method path data (acct s)) (world s)).1 = Ret resp ∧
      status resp = 401 ∧ e = InvalidAuthCredentials) ∨
   (∃ resp,
      (session_request (build_request method path data (acct s)) (world s)).1 = Ret resp ∧
      400 ≤ status resp ∧ status resp ≠ 401 ∧ e = APIUnavailable)).
Proof.
  unfold _request. rewrite _request_with_true, send_eq. simpl.
  destruct (session_request _ _) as [[resp|e0] w]; simpl.
  - destruct (status resp =? 401) eqn:H401.
    + intros [= <- <-]. split; [done|]. right; left. exists resp.
      apply Z.eqb_eq in H401. done.
    + destruct (400 <=? status resp) eqn:H400; [|discriminate].
      intros [= <- <-]. split; [done|]. right; right. exists resp.
      apply Z.eqb_neq in H401. apply Z.leb_le in H400. done.
  - intros [= <- <-]. split; [done|]. by left.
Qed.

(** ** How much a call talks *)

(** X2. Without a refresh token no refresh is made, whatever the state of
    the access token: [login], [logout] and [get_units] then send nothing
    when the validity check raises, and their own request alone otherwise. *)
Theorem no_refresh_token_no_refresh (c : call) (s : State World) :
  c ≠ Refresh →
  _refresh_token (acct s) = JNull →
  refresh_count (new_exchanges (perform c) s) = 0%nat ∧
  (new_exchanges (perform c) s = [] ∨
   ∃ r, new_exchanges (perform c) s = [(own_request c (acct s), r)]).
Proof.
  intros Hc Hr. destruct (call_trace c s Hc) as [[H _] | [[_ H] | (_ & Hne & _)]].
  - rewrite H. split; [done | by left].
  - rewrite H. split; [|right; by eexists].
    unfold refresh_count. simpl. by rewrite own_request_not_refresh.
  - done.
Qed.

(** X3. No call repeats a request: [refresh] makes exactly one exchange
    with the session, and [login], [logout] and [get_units] make at most two,
    of which at most one is a refresh. *)
Theorem calls_send_at_most_twice (c : call) (s : State World) :
  (length (new_exchanges (perform c) s) ≤ 2)%nat ∧
  (refresh_count (new_exchanges (perform c) s) ≤ 1)%nat ∧
  (c = Refresh → length (new_exchanges (perform c) s) = 1%nat).
Proof.
  destruct (decide (c = Refresh)) as [-> | Hc].
  - simpl. rewrite refresh_trace. split; [simpl; lia|]. split; [|done].
    unfold refresh_count. simpl. lia.
  - split; [|split; [|done]].
    + destruct (call_trace c s Hc) as [[H _] | [[_ H] | (_ & _ & H)]]; rewrite H; simpl.
      * lia.
      * lia.
      * destruct (refresh s) as [[[]|e] s1]; simpl; lia.
    + destruct (call_trace c s Hc) as [[H _] | [[_ H] | (_ & _ & H)]]; rewrite H;
        unfold refresh_count.
      * simpl. lia.
      * simpl. rewrite own_request_not_refresh by done. simpl. lia.
      * destruct (refresh s) as [[[]|e] s1]; simpl.
        -- rewrite own_request_not_refresh by done. simpl. lia.
        -- lia.
Qed.

(** ** What a call leaves alone *)

Lemma request_credentials method path data flag s :
  _username (acct (_request method path data flag s).2) = _username (acct s) ∧
  _password (acct (_request method path data flag s).2) = _password (acct s).
Proof.
  rewrite request_split.
  destruct (refresh_first_cases flag s) as [H | [[e H] | (H & _)]]; rewrite H.
  - by rewrite (proj2 (send_sent method path data s)).
  - done.
  - pose proof (refresh_credentials s) as Hc.
    destruct (refresh s) as [[[]|e] s1]; simpl in *; [|done].
    by rewrite (proj2 (send_sent method path data s1)).
Qed.

(** X4. No call changes the user name or the password the account was
    made with, whether it returns or raises. *)
Theorem calls_keep_credentials (c : call) (s : State World) :
  _username (acct (perform c s).2) = _username (acct s) ∧
  _password (acct (perform c s).2) = _password (acct s).
Proof.
  destruct c; simpl.
  - rewrite login_after_request.
    pose proof (request_credentials "post" "login" (call_data Login (acct s)) false s) as Hc.
    destruct (_request _ _ _ _ s) as [[resp|e] s1]; simpl in *; [|done].
    destruct (store_tokens_credentials resp s1) as [-> ->]. done.
  - unfold logout. unfold_M.
    pose proof (request_credentials "post" "logout" None false s) as Hc.
    by destruct (_request _ _ _ _ s) as [[resp|e] s1].
  - apply refresh_credentials.
  - unfold get_units. unfold_M.
    pose proof (request_credentials "get" "units" None false s) as Hc.
    destruct (_request _ _ _ _ s) as [[resp|e] s1]; simpl in *; [|done].
    destruct (resp_json resp) as [data|e]; simpl; [|done].
    destruct (py_getitem data "items") as [items|e]; simpl; [|done].
    destruct (py_iter items) as [its|e]; simpl; [|done].
    by destruct (comprehension unit_of_item its).
Qed.

Lemma logout_get_units_account c s :
  c = Logout ∨ c = GetUnits →
  acct (perform c s).2 =
    acct (_request (call_method c) (call_path c) (call_data c (acct s)) false s).2.
Proof.
  intros [-> | ->]; simpl.
  - unfold logout. unfold_M. by destruct (_request _ _ _ _ s) as [[resp|e] s1].
  - unfold get_units. unfold_M.
    destruct (_request _ _ _ _ s) as [[resp|e] s1]; simpl; [|done].
    destruct (resp_json resp) as [data|e]; simpl; [|done].
    destruct (py_getitem data "items") as [items|e]; simpl; [|done].
    destruct (py_iter items) as [its|e]; simpl; [|done].
    by destruct (comprehension unit_of_item its).
Qed.

(** X5. [logout] and [get_units] touch the account through the refresh
    only, whether they return or raise: when no refresh was made the
    account is as before, and when the stale token was refreshed first the
    account is as the refresh left it, even if the call then failed. *)
Theorem logout_get_units_change_nothing_themselves (c : call) (s : State World) :
  c = Logout ∨ c = GetUnits →
  (refresh_count (new_exchanges (perform c) s) = 0%nat →
     acct (perform c s).2 = acct s) ∧
  (token_absent s ∨ token_without_exp s ∨ token_expired s →
   _refresh_token (acct s) ≠ JNull →
     acct (perform c s).2 = acct (refresh s).2).
Proof.
  intros Hc.
  assert (Hne : c ≠ Refresh) by (destruct Hc as [-> | ->]; discriminate).
  rewrite (logout_get_units_account c s Hc). rewrite request_split. split.
  - intros Hcount.
    destruct (call_trace c s Hne) as [[_ (e & Hv & _)] | [[H _] | (_ & _ & H)]].
    + pose proof (request_check_raises (call_method c) (call_path c)
                    (call_data c (acct s)) s e Hv) as Hrq.
      rewrite request_split in Hrq.
      destruct (refresh_first false s) as [[u|e0] s0]; [|by simplify_eq].
      by rewrite Hrq.
    + rewrite H. apply send_sent.
    + rewrite H in Hcount. discriminate.
  - intros Hstale Hr. apply valid_false_iff in Hstale.
    rewrite (check_false_refresh s Hstale Hr).
    destruct (refresh s) as [[[]|e] s1]; simpl; [|done].
    apply send_sent.
Qed.

(** ** Storing the answer of [login] and [refresh] *)

Lemma answer_outcome_ok resp :
  status resp < 400 → answer_outcome (Ret resp) = Ret resp.
Proof.
  intros H. simpl.
  assert ((status resp =? 401) = false) as -> by (apply Z.eqb_neq; lia).
  assert ((400 <=? status resp) = false) as -> by (apply Z.leb_gt; lia).
  reflexivity.
Qed.

Lemma store_tokens_both resp body a rt s :
  resp_json resp = Ret (JObj body) →
  body !! "accessToken" = Some a → body !! "refreshToken" = Some rt →
  store_tokens resp s =
    (Ret tt, {| acct := set_refresh_token rt (set_access_token a (acct s));
                world := world s; sent := sent s |}).
Proof.
  intros Hb Ha Hr. unfold store_tokens. unfold_M. rewrite Hb. simpl.
  by rewrite Ha, Hr.
Qed.

Lemma store_tokens_half resp body a s :
  resp_json resp = Ret (JObj body) →
  body !! "accessToken" = Some a → body !! "refreshToken" = None →
  store_tokens resp s =
    (Raise (KeyError "refreshToken"),
     {| acct := set_access_token a (acct s); world := world s; sent := sent s |}).
Proof.
  intros Hb Ha Hr. unfold store_tokens. unfold_M. rewrite Hb. simpl.
  by rewrite Ha, Hr.
Qed.

(** X6. A [login] that fails without a refresh having been made leaves the
    account as it was, tokens included, unless the failure is the
    [KeyError] for a missing ["refreshToken"]. *)
Theorem failed_login_keeps_account (s s' : State World) (e : exn) :
  login s = (Raise e, s') →
  refresh_count (new_exchanges login s) = 0%nat →
  e ≠ KeyError "refreshToken" →
  acct s' = acct s.
Proof.
  intros Hrun Hcount Hne.
  assert (Hc : Login ≠ Refresh) by discriminate.
  assert (Hacct : acct (_request "post" "login" (call_data Login (acct s)) false s).2 = acct s).
  { destruct (call_trace Login s Hc) as [[_ (e0 & Hv & _)] | [[H _] | (_ & _ & H)]].
    - by rewrite (request_check_raises "post" "login" _ s e0 Hv).
    - apply (request_trace_direct "post" "login" _ false s H).
    - simpl in H. rewrite H in Hcount. discriminate. }
  rewrite login_after_request in Hrun.
  destruct (_request _ _ _ _ s) as [[resp|e0] s1]; simpl in Hacct.
  - apply store_tokens_fail in Hrun as [_ Hrun]. by rewrite (Hrun Hne).
  - by simplify_eq.
Qed.

(** X7. When the last answer a [login] or [refresh] received has a status
    below 400 and a JSON object with ["accessToken"] but without
    ["refreshToken"], the call raises [KeyError] for the missing key after
    it stored the new access token: the account ends with the access token
    of the body. *)
Theorem half_a_body_is_half_stored (c : call) (s : State World) req resp body a :
  c = Login ∨ c = Refresh →
  last (new_exchanges (perform c) s) = Some (req, Ret resp) →
  status resp < 400 →
  resp_json resp = Ret (JObj body) →
  body !! "accessToken" = Some a → body !! "refreshToken" = None →
  (perform c s).1 = Raise (KeyError "refreshToken") ∧
  _access_token (acct (perform c s).2) = a.
Proof.
  intros Hc Hlast Hst Hb Ha Hr.
  assert (Href : ∀ s0 : State World,
    last (new_exchanges refresh s0) = Some (req, Ret resp) →
    (refresh s0).1 = Raise (KeyError "refreshToken") ∧
    _access_token (acct (refresh s0).2) = a).
  { intros s0. rewrite refresh_trace. simpl. intros [= _ Hresp].
    rewrite refresh_eq. simpl. destruct (session_request _ _) as [r w].
    simpl in Hresp. subst r. rewrite (answer_outcome_ok resp Hst).
    by rewrite (store_tokens_half resp body a _ Hb Ha Hr). }
  destruct Hc as [-> | ->]; [|by apply Href].
  assert (Hne : Login ≠ Refresh) by discriminate.
  assert (Hsend : ∀ s0 : State World,
    (session_request (own_request Login (acct s0)) (world s0)).1 = Ret resp →
    _username (acct s0) = _username (acct s) → _password (acct s0) = _password (acct s) →
    match send "post" "login" (call_data Login (acct s)) s0 with
    | (Ret resp0, s1) => store_tokens resp0 s1
    | (Raise e, s1) => (Raise e, s1)
    end.1 = Raise (KeyError "refreshToken") ∧
    _access_token (acct
      match send "post" "login" (call_data Login (acct s)) s0 with
      | (Ret resp0, s1) => store_tokens resp0 s1
      | (Raise e, s1) => (Raise e, s1)
      end.2) = a).
  { intros s0 Hresp Hu Hp. rewrite send_eq. simpl.
    assert (Hd : login_data (acct s0) = login_data (acct s))
      by (unfold login_data; by rewrite Hu, Hp).
    simpl in Hresp. rewrite Hd in Hresp.
    destruct (session_request _ _) as [r w]. simpl in Hresp. subst r.
    rewrite (answer_outcome_ok resp Hst).
    by rewrite (store_tokens_half resp body a _ Hb Ha Hr). }
  simpl in Hlast |- *. rewrite login_after_request, request_split.
  destruct (call_trace Login s Hne) as [[H _] | [[H Ht] | (Hv & Hrt & Ht)]];
    simpl in *.
  - rewrite H in Hlast. discriminate.
  - rewrite Ht in Hlast. simpl in Hlast. injection Hlast as _ Hresp.
    rewrite H. by apply Hsend.
  - rewrite (check_false_refresh s Hv Hrt).
    pose proof (refresh_credentials s) as [Hu Hp].
    pose proof (Href s) as Hrs. rewrite refresh_trace in Hrs.
    rewrite Ht in Hlast.
    destruct (refresh s) as [[[]|e] s1] eqn:Hrefresh; simpl in *.
    + injection Hlast as _ Hresp. by apply Hsend.
    + by apply Hrs.
Qed.

(** X8. Enough for [login] on an account made with a user name and a
    password only: it sends the one login request, with the credentials
    and an empty [firebaseId] as data and without headers, never looking at
    the decoder; and when the answer has a status below 400 and a JSON
    object with both tokens, [login] returns and the account holds them. *)
Theorem first_login (u p : json) (w : World) log :
  let s := {| acct := __init__ u p JNull JNull; world := w; sent := log |} in
  let req := {| req_method := "post"; req_url := api_base +:+ "login";
                req_data := Some {[ "username" := u; "password" := p;
                                    "firebaseId" := JStr EmptyString ]};
                req_headers := None |} in
  new_exchanges login s = [(req, (session_request req w).1)] ∧
  ∀ resp w' body a rt,
    session_request req w = (Ret resp, w') →
    status resp < 400 →
    resp_json resp = Ret (JObj body) →
    body !! "accessToken" = Some a → body !! "refreshToken" = Some rt →
    login s = (Ret tt, {| acct := __init__ u p a rt; world := w';
                          sent := (log ++ [(req, Ret resp)])%list |}).
Proof.
  intros s req.
  assert (Heq : login s =
    match send "post" "login" (Some (login_data (acct s))) s with
    | (Ret resp, s1) => store_tokens resp s1
    | (Raise e, s1) => (Raise e, s1)
    end) by reflexivity.
  split.
  - apply new_exchanges_app. rewrite Heq.
    destruct (send_sent "post" "login" (Some (login_data (acct s))) s) as [Hs _].
    destruct (send _ _ _ s) as [[resp|e] s1]; simpl in Hs |- *.
    + by rewrite (proj1 (store_tokens_frame resp s1)).
    + done.
  - intros resp w' body a rt Hreq Hst Hb Ha Hr.
    assert (Hbuild : build_request "post" "login" (Some (login_data (acct s))) (acct s) = req)
      by reflexivity.
    rewrite Heq, send_eq. cbv zeta. rewrite Hbuild.
    change (world s) with w. rewrite Hreq.
    rewrite (answer_outcome_ok resp Hst).
    by rewrite (store_tokens_both resp body a rt _ Hb Ha Hr).
Qed.

(** X9. Enough for [refresh]: when the session answers its request with a
    status below 400 and a JSON object with both tokens, [refresh] returns
    and the account holds them, whatever access token it held before. *)
Theorem refresh_succeeds (s : State World) resp w' body a rt :
  session_request (refresh_request (acct s)) (world s) = (Ret resp, w') →
  status resp < 400 →
  resp_json resp = Ret (JObj body) →
  body !! "accessToken" = Some a → body !! "refreshToken" = Some rt →
  refresh s =
    (Ret tt, {| acct := __init__ (_username (acct s)) (_password (acct s)) a rt;
                world := w';
                sent := (sent s ++ [(refresh_request (acct s), Ret resp)])%list |}).
Proof.
  intros Hreq Hst Hb Ha Hr. rewrite refresh_eq. simpl. rewrite Hreq.
  rewrite (answer_outcome_ok resp Hst).
  by rewrite (store_tokens_both resp body a rt _ Hb Ha Hr).
Qed.

(** ** The validity check, further *)

(** X10. A stored token whose payload has an [exp] that is no number (a
    string, [None], a list, a dict) makes the validity check raise
    [TypeError] at the comparison, and with it [login], [logout] and
    [get_units], before any request is made. *)
Theorem non_numeric_exp_raises (s : State World) payload e :
  _access_token (acct s) ≠ JNull →
  jwt_decode (_access_token (acct s)) = Ret payload →
  payload !! "exp" = Some e →
  num_value e = None →
  _is_access_token_valid s = (Raise TypeError, s) ∧
  ∀ c, c ≠ Refresh → perform c s = (Raise TypeError, s).
Proof.
  intros Hn Hd He Hnum. apply is_None_false in Hn.
  assert (Hv : _is_access_token_valid s = (Raise TypeError, s)).
  { unfold _is_access_token_valid, py_lt. unfold_M. rewrite Hn, Hd. simpl.
    rewrite He. simpl. by rewrite Hnum. }
  split; [done|]. intros c Hc.
  destruct (perform_after_request c s Hc) as [_ Hp]. simpl in Hp.
  assert (Hrq : _request (call_method c) (call_path c) (call_data c (acct s)) false s
                = (Raise TypeError, s)).
  { apply request_check_raises. by rewrite Hv. }
  rewrite (Hp TypeError); by rewrite Hrq.
Qed.

(** X11. A refresh that fails before [login], [logout] or [get_units] ends
    the call with that exception and, unless it is the [KeyError] for a
    missing ["refreshToken"], leaves the account without access token and
    with the refresh token it had; so the next such call starts with the
    same refresh request again. *)
Theorem failed_refresh_is_tried_again (c c' : call) (s s1 : State World) (e : exn) :
  c ≠ Refresh → c' ≠ Refresh →
  token_absent s ∨ token_without_exp s ∨ token_expired s →
  _refresh_token (acct s) ≠ JNull →
  refresh s = (Raise e, s1) →
  e ≠ KeyError "refreshToken" →
  perform c s = (Raise e, s1) ∧
  token_absent s1 ∧
  _refresh_token (acct s1) = _refresh_token (acct s) ∧
  ∃ r rest, new_exchanges (perform c') s1 = (refresh_request (acct s), r) :: rest.
Proof.
  intros Hc Hc' Hstale Hrt Href Hne.
  apply valid_false_iff in Hstale.
  destruct (refresh_fail s e s1 Href) as [Hkeep Hnone]. specialize (Hnone Hne).
  assert (Hrun : perform c s = (Raise e, s1)).
  { destruct (perform_after_request c s Hc) as [_ Hp]. simpl in Hp.
    assert (Hrq : _request (call_method c) (call_path c) (call_data c (acct s)) false s
                  = (Raise e, s1)).
    { by rewrite request_split, (check_false_refresh s Hstale Hrt), Href. }
    rewrite (Hp e); by rewrite Hrq. }
  repeat split; [done | done | done |].
  assert (Hv1 : _is_access_token_valid s1 = (Ret false, s1)).
  { apply valid_false_iff. by left. }
  assert (Hrt1 : _refresh_token (acct s1) ≠ JNull) by by rewrite Hkeep.
  destruct (call_trace c' s1 Hc') as [[_ (e0 & He0 & _)] | [[H _] | (_ & _ & H)]].
  - rewrite Hv1 in He0. discriminate.
  - rewrite (check_false_refresh s1 Hv1 Hrt1) in H.
    pose proof (refresh_sent s1) as Hlen. rewrite H in Hlen. simpl in Hlen.
    apply (f_equal length) in Hlen. rewrite length_app in Hlen. simpl in Hlen. lia.
  - rewrite H. eexists _, _. f_equal. f_equal.
    unfold refresh_request, refresh_token. by rewrite Hkeep.
Qed.

(** ** Where requests go and what they carry *)

Lemma own_request_shape c a :
  req_url (own_request c a) ∈ endpoints ∧
  (req_headers (own_request c a) = None ∨
   ∃ tok, tok ≠ JNull ∧ req_headers (own_request c a) = Some {[ "access-token" := tok ]}) ∧
  ∀ d, req_data (own_request c a) = Some d →
    (is_Some (d !! "password") → c = Login) ∧
    (is_Some (d !! "refreshToken") → c = Refresh).
Proof.
  assert (Hh : ∀ method path data a0,
    req_headers (build_request method path data a0) = None ∨
    ∃ tok, tok ≠ JNull ∧
      req_headers (build_request method path data a0) = Some {[ "access-token" := tok ]}).
  { intros method path data a0. simpl.
    destruct (is_None (_access_token a0)) eqn:Hn; [by left|].
    right. exists (_access_token a0). split; [by apply is_None_false | done]. }
  split; [|split].
  - destruct c; simpl; unfold endpoints; set_solver.
  - destruct c; apply Hh.
  - intros d Hd. destruct c; simpl in Hd; simplify_eq; split; try done.
    + unfold login_data. rewrite !lookup_insert_ne by done.
      rewrite lookup_singleton_ne by done. by intros [? ?].
    + rewrite lookup_singleton_ne by done. by intros [? ?].
Qed.

(** Every exchange of a call carries the call's own request or the
    refresh request. *)
Lemma exchange_is_own_or_refresh c s x :
  x ∈ new_exchanges (perform c) s →
  ∃ a, x.1 = own_request c a ∨ x.1 = own_request Refresh a.
Proof.
  destruct (decide (c = Refresh)) as [-> | Hc].
  - simpl. rewrite refresh_trace. intros Hx. apply list_elem_of_singleton in Hx as ->.
    exists (acct s). by left.
  - destruct (call_trace c s Hc) as [[H _] | [[_ H] | (_ & _ & H)]]; rewrite H.
    + intros Hx. by apply elem_of_nil in Hx.
    + intros Hx. apply list_elem_of_singleton in Hx as ->. exists (acct s). by left.
    + intros Hx. apply elem_of_cons in Hx as [-> | Hx].
      * exists (acct s). by right.
      * destruct (refresh s) as [[[]|e] s1]; [|by apply elem_of_nil in Hx].
        apply list_elem_of_singleton in Hx as ->. exists (acct s1). by left.
Qed.

(** X12. Every request a call sends goes to one of the four endpoints
    under the API base, and its headers are either absent or the single
    header [access-token] with a value that is not [None]. *)
Theorem requests_stay_on_the_api (c : call) (s : State World) x :
  x ∈ new_exchanges (perform c) s →
  req_url x.1 ∈ endpoints ∧
  (req_headers x.1 = None ∨
   ∃ tok, tok ≠ JNull ∧ req_headers x.1 = Some {[ "access-token" := tok ]}).
Proof.
  intros Hx. destruct (exchange_is_own_or_refresh c s x Hx) as [a [-> | ->]].
  - destruct (own_request_shape c a) as (Hu & Hh & _). done.
  - destruct (own_request_shape Refresh a) as (Hu & Hh & _). done.
Qed.

(** X13. The password is sent to the login endpoint only, and the refresh
    token, as data, to the refresh endpoint only: a request whose data has
    a ["password"] key is a login request, and one whose data has a
    ["refreshToken"] key is a refresh request. *)
Theorem secrets_go_to_their_endpoint (c : call) (s : State World) x d :
  x ∈ new_exchanges (perform c) s →
  req_data x.1 = Some d →
  (is_Some (d !! "password") → req_url x.1 = api_base +:+ "login") ∧
  (is_Some (d !! "refreshToken") → req_url x.1 = refresh_url).
Proof.
  intros Hx Hd. destruct (exchange_is_own_or_refresh c s x Hx) as [a [Heq | Heq]];
    rewrite Heq in Hd |- *.
  - destruct (own_request_shape c a) as (_ & _ & Hdata).
    destruct (Hdata d Hd) as [Hp Hr]. split.
    + intros H. by rewrite (Hp H).
    + intros H. by rewrite (Hr H).
  - destruct (own_request_shape Refresh a) as (_ & _ & Hdata).
    destruct (Hdata d Hd) as [Hp Hr]. split.
    + intros H. by specialize (Hp H).
    + done.
Qed.

(** ** Units, further *)

(** X14. An item becomes a unit exactly when it is a JSON object that has
    the six keys read with [item[...]] and whose ["serialNumber"] [int]
    accepts; ["name"] and ["notes"] are never needed. *)
Theorem unit_of_item_succeeds_iff (item : json) :
  (∃ u, unit_of_item item = Ret u) ↔
  ∃ m sn n, item = JObj m ∧ m !! "serialNumber" = Some sn ∧ py_int sn = Ret n ∧
    Forall (λ k, is_Some (m !! k)) required_keys.
Proof.
  split.
  - intros [u Hu]. apply unit_of_item_fields in Hu
      as (m & sn & -> & Hsn & Hn & Hty & _ & _ & Htz & Hon & Hdl & Hhe).
    exists m, sn, (unit_serial_number u). repeat split; try done.
    unfold required_keys. repeat constructor; eauto.
  - intros (m & sn & n & -> & Hsn & Hn & Hall).
    unfold required_keys in Hall. rewrite !Forall_cons in Hall.
    destruct Hall as (_ & [ty Hty] & [tz Htz] & [on Hon] & [dl Hdl] & [he Hhe] & _).
    eexists. unfold unit_of_item, mbind, result_bind, mret, result_ret. simpl.
    rewrite Hsn, Hn, Hty, Htz, Hon, Hdl, Hhe. reflexivity.
Qed.

Lemma comprehension_first_failure {A B} (f : A → result B) good bad rest e :
  Forall (λ x, ∃ y, f x = Ret y) good →
  f bad = Raise e →
  comprehension f (good ++ bad :: rest) = Raise e.
Proof.
  intros Hgood Hbad. induction Hgood as [|x good [y Hy] _ IH]; simpl.
  - unfold mbind, result_bind. by rewrite Hbad.
  - unfold mbind, result_bind in *. by rewrite Hy, IH.
Qed.

(** X15. [get_units] is all or nothing: when the ["items"] array has an
    item that does not become a unit, the call raises the exception of the
    first such item and returns no unit, whatever follows that item. *)
Theorem get_units_first_bad_item (s s1 : State World) resp body good bad rest e :
  _request "get" "units" None false s = (Ret resp, s1) →
  resp_json resp = Ret (JObj body) →
  body !! "items" = Some (JArr (good ++ bad :: rest)) →
  Forall (λ item, ∃ u, unit_of_item item = Ret u) good →
  unit_of_item bad = Raise e →
  get_units s = (Raise e, s1).
Proof.
  intros Hrq Hb Hi Hgood Hbad. unfold get_units. unfold_M.
  rewrite Hrq, Hb. simpl. rewrite Hi. simpl.
  by rewrite (comprehension_first_failure unit_of_item good bad rest e Hgood Hbad).
Qed.

(** X16. What [get_units] raises on a body of the wrong shape, once the
    response is there: the exception of [json()]; [TypeError] for a body
    that is no JSON object; [KeyError] for an object without ["items"];
    [TypeError] for ["items"] that are [None], a boolean or a number. *)
Theorem get_units_wrong_body (s s1 : State World) resp :
  _request "get" "units" None false s = (Ret resp, s1) →
  (∀ e, resp_json resp = Raise e → get_units s = (Raise e, s1)) ∧
  (∀ d, resp_json resp = Ret d → (∀ m, d ≠ JObj m) →
     get_units s = (Raise TypeError, s1)) ∧
  (∀ body, resp_json resp = Ret (JObj body) → body !! "items" = None →
     get_units s = (Raise (KeyError "items"), s1)) ∧
  (∀ body v, resp_json resp = Ret (JObj body) → body !! "items" = Some v →
     num_value v ≠ None ∨ v = JNull →
     get_units s = (Raise TypeError, s1)).
Proof.
  intros Hrq. unfold get_units. unfold_M. rewrite Hrq. repeat split.
  - by intros e ->.
  - intros d -> Hd. destruct d; simpl; try done. by destruct (Hd m).
  - intros body -> Hi. simpl. by rewrite Hi.
  - intros body v -> Hi Hv. simpl. rewrite Hi. simpl.
    destruct v; simpl in *; try done; by destruct Hv.
Qed.

End Account.

(** ** What [refresh] never looks at *)

(** X17. [refresh] consults neither the JWT decoder nor the clock: with
    the same session it does the same under any two decoders and clocks.
    So it also runs on an account whose access token the decoder
    rejects. *)
Theorem refresh_ignores_decoder_and_clock (World : Type)
    (session_request : Request → World → result ClientResponse * World)
    (clock clock' : World → Q) (decode decode' : json → result (gmap string json))
    (s : State World) :
  refresh World session_request clock decode s =
  refresh World session_request clock' decode' s.
Proof. reflexivity. Qed.

(** ** Runs against the scripted transport *)

Abbreviation scripted f := (f Scripted scripted_request now toy_decode) (only parsing).

(** C3. What the code does when the connection fails under [login]: the
    [ClientConnectorError] of [session.request], a [ClientError], leaves
    the call as it is, where a [ClientError] of [raise_for_status] (a
    status 500 here) is turned into [APIUnavailable]. *)
Theorem connection_failure_is_not_mapped :
  (scripted login (start (account JNull JNull)
                     [Raise (ClientError "ClientConnectorError")])).1
    = Raise (ClientError "ClientConnectorError") ∧
  is_ClientError (ClientError "ClientConnectorError") = true ∧
  (scripted login (start (account JNull JNull)
                     [Ret {| status := 500; resp_json := Ret JNull |}])).1
    = Raise APIUnavailable.
Proof. repeat split; vm_compute; reflexivity. Qed.

(** *** Small runs *)

Example int_of_plain_digits : int_of_string "123" = Ret 123.
Proof. reflexivity. Qed.

Example int_of_padded_signed_digits : int_of_string " -1_000 " = Ret (-1000).
Proof. reflexivity. Qed.

Example int_of_doubled_underscore : int_of_string "1__0" = Raise ValueError.
Proof. reflexivity. Qed.

Example int_of_letters : py_int (JStr "12a") = Raise ValueError.
Proof. reflexivity. Qed.

Example int_of_none : py_int JNull = Raise TypeError.
Proof. reflexivity. Qed.

(** The file separator is no white space for [int]. *)
Example int_of_file_separator :
  int_of_string (String (ascii_of_nat 28) "12") = Raise ValueError.
Proof. reflexivity. Qed.

Example int_of_arabic_indic_digits : int_of_string "١٢٣" = Ret 123.
Proof. reflexivity. Qed.

(** A no-break space (bytes 194, 160) before the digits and an
    ideographic space after them. *)
Example int_of_unicode_spaces :
  int_of_string (String (ascii_of_nat 194) (String (ascii_of_nat 160) "12　")) = Ret 12.
Proof. reflexivity. Qed.

Example int_of_4300_digits :
  match int_of_string (string_of_list_ascii (repeat "1"%char 4300)) with
  | Ret z => 0 <? z
  | Raise _ => false
  end = true.
Proof. vm_compute. reflexivity. Qed.

Example int_of_4301_digits :
  int_of_string (string_of_list_ascii (repeat "0"%char 4301)) = Raise ValueError.
Proof. vm_compute. reflexivity. Qed.

(** An item whose serial number starts with a file separator is the
    first bad item, before the one without time zone. *)
Example units_with_bad_serial_number :
  (scripted get_units
     (start (account (JStr "fresh") JNull)
        [ok_response (JObj {[ "items" := JArr
           [JObj {[ "serialNumber" := JStr (String (ascii_of_nat 28) "12");
                    "type" := JStr "X"; "timezone" := JStr "UTC";
                    "isOnline" := JBool true; "dateLastData" := JStr "...";
                    "hasError" := JBool false ]};
            item_without_timezone] ]})])).1 = Raise ValueError.
Proof. reflexivity. Qed.

(** A [logout] with an expired token: the refresh goes out without header,
    the logout with the token the refresh brought. *)
Example logout_after_refresh :
  (λ x, req_headers x.1) <$>
    sent (scripted logout
            (start (account (JStr "stale") (JStr "r0"))
               [ok_response (tokens_body "fresh" "r1"); ok_response JNull])).2
  = [None; Some {[ "access-token" := JStr "fresh" ]}].
Proof. reflexivity. Qed.

(** A refresh answered with a body that has ["accessToken"] only: the call
    fails on the missing key after the new access token was stored. *)
Example refresh_with_half_a_body :
  let end_ := scripted refresh
    (start (account (JStr "stale") (JStr "r0"))
       [ok_response (JObj {[ "accessToken" := JStr "a1" ]})]) in
  end_.1 = Raise (KeyError "refreshToken") ∧
  _access_token (acct end_.2) = JStr "a1" ∧
  _refresh_token (acct end_.2) = JStr "r0".
Proof. repeat split. Qed.

(** A units body whose ["items"] is an empty string gives no units. *)
Example units_of_empty_string :
  (scripted get_units
     (start (account (JStr "fresh") JNull)
        [ok_response (JObj {[ "items" := JStr EmptyString ]})])).1 = Ret [].
Proof. reflexivity. Qed.

(** *** The theorems at work *)

Lemma refresh_exactly_when_needed_witness :
  refresh_count (new_exchanges Scripted (scripted perform Logout)
    (start (account (JStr "fresh") (JStr "r0")) [ok_response JNull])) = 0%nat ∧
  refresh_count (new_exchanges Scripted (scripted perform Logout)
    (start (account (JStr "stale") (JStr "r0"))
       [ok_response (tokens_body "fresh" "r1"); ok_response JNull])) = 1%nat.
Proof.
  split.
  - refine (proj1 (proj1 (scripted refresh_exactly_when_needed Logout _ _) _)).
    + discriminate.
    + split; [discriminate|].
      exists {[ "exp" := JInt 2000 ]}, (JInt 2000). repeat split.
      exists (Finite (inject_Z 2000)). split; [reflexivity | vm_compute; reflexivity].
  - refine (proj1 (proj2 (scripted refresh_exactly_when_needed Logout _ _) _ _)).
    + discriminate.
    + right; right. split; [discriminate|].
      exists {[ "exp" := JInt 500 ]}, (JInt 500), (Finite (inject_Z 500)).
      repeat split. vm_compute. discriminate.
    + discriminate.
Defined.

Lemma status_decides_failure_witness :
  (scripted perform Login (start (account JNull JNull)
     [Ret {| status := 401; resp_json := Ret (tokens_body "a1" "r1") |}])).1
    = Raise InvalidAuthCredentials ∧
  (scripted perform GetUnits (start (account (JStr "fresh") JNull)
     [Ret {| status := 500; resp_json := Ret example_units_body |}])).1
    = Raise APIUnavailable ∧
  scripted _request "get" "units" None false
      (start (account (JStr "fresh") JNull) [ok_response example_units_body])
    = (Ret {| status := 200; resp_json := Ret example_units_body |},
       answered Scripted (start (account (JStr "fresh") JNull) [ok_response example_units_body])
         (build_request "get" "units" None (account (JStr "fresh") JNull))
         (ok_response example_units_body) {| now := 1000; script := [] |}).
Proof.
  split; [|split].
  - refine (proj1 (proj2 (scripted status_decides_failure) Login _
      (own_request Login (account JNull JNull))
      {| status := 401; resp_json := Ret (tokens_body "a1" "r1") |} _) _);
      reflexivity.
  - refine (proj2 (proj2 (scripted status_decides_failure) GetUnits _
      (own_request GetUnits (account (JStr "fresh") JNull))
      {| status := 500; resp_json := Ret example_units_body |} _) _ _);
      [reflexivity | discriminate | vm_compute; discriminate].
  - refine (proj2 (proj2 (proj1 (scripted status_decides_failure) "get" "units" None false
      _ _ {| status := 200; resp_json := Ret example_units_body |}
      {| now := 1000; script := [] |} _ _)) _);
      [reflexivity | reflexivity | reflexivity].
Defined.

Lemma access_token_valid_iff_witness :
  _is_access_token_valid Scripted now toy_decode (start (account (JStr "fresh") JNull) [])
    = (Ret true, start (account (JStr "fresh") JNull) []) ∧
  _is_access_token_valid Scripted now toy_decode (start (account JNull JNull) [])
    = (Ret false, start (account JNull JNull) []).
Proof.
  split.
  - apply (proj1 (access_token_valid_iff Scripted now toy_decode _)).
    split; [discriminate|].
    exists {[ "exp" := JInt 2000 ]}, (JInt 2000). repeat split.
    exists (Finite (inject_Z 2000)). split; [reflexivity | vm_compute; reflexivity].
  - apply (proj2 (access_token_valid_iff Scripted now toy_decode _)). reflexivity.
Defined.

Lemma tokens_equal_response_body_witness :
  ∃ req resp body,
    last [(build_request "post" "login" (Some (login_data (account JNull JNull)))
             (account JNull JNull), ok_response (tokens_body "a1" "r1"))]
      = Some (req, Ret resp) ∧
    req_url req = api_base +:+ "login" ∧
    resp_json resp = Ret body ∧
    py_getitem body "accessToken" = Ret (JStr "a1") ∧
    py_getitem body "refreshToken" = Ret (JStr "r1").
Proof.
  refine (scripted tokens_equal_response_body Login
    (start (account JNull JNull) [ok_response (tokens_body "a1" "r1")])
    {| acct := account (JStr "a1") (JStr "r1");
       world := {| now := 1000; script := [] |};
       sent := [(build_request "post" "login" (Some (login_data (account JNull JNull)))
                   (account JNull JNull), ok_response (tokens_body "a1" "r1"))] |} _ _).
  - by left.
  - reflexivity.
Defined.

Lemma refresh_request_has_no_access_token_witness :
  (∃ r, new_exchanges Scripted (scripted refresh)
          (start (account (JStr "stale") (JStr "r0")) [ok_response (tokens_body "fresh" "r1")]) =
        [({| req_method := "post"; req_url := refresh_url;
             req_data := Some {[ "refreshToken" := JStr "r0" ]};
             req_headers := None |}, r)]) ∧
  (∃ r, sent (scripted _request "post" "logout" None true
                (start (account (JStr "fresh") (JStr "r0")) [ok_response JNull])).2 =
        [({| req_method := "post"; req_url := api_base +:+ "logout"; req_data := None;
             req_headers := Some {[ "access-token" := JStr "fresh" ]} |}, r)]).
Proof.
  split.
  - exact (proj1 (proj2 (scripted refresh_request_has_no_access_token
      (start (account (JStr "stale") (JStr "r0")) [ok_response (tokens_body "fresh" "r1")])))).
  - refine (proj2 (proj2 (scripted refresh_request_has_no_access_token
      (start (account (JStr "fresh") (JStr "r0")) [ok_response JNull])))
      "post" "logout" None true
      (start (account (JStr "fresh") (JStr "r0")) [ok_response JNull]) _).
    reflexivity.
Defined.

Lemma decode_error_propagates_witness :
  scripted perform GetUnits
      (start (account (JStr "junk") (JStr "r0")) [ok_response example_units_body])
    = (Raise DecodeError,
       start (account (JStr "junk") (JStr "r0")) [ok_response example_units_body]).
Proof.
  refine (proj2 (scripted decode_error_propagates
    (start (account (JStr "junk") (JStr "r0")) [ok_response example_units_body])
    DecodeError _ _) GetUnits _).
  - discriminate.
  - reflexivity.
  - discriminate.
Defined.

Lemma logout_keeps_tokens_witness :
  _access_token (account (JStr "fresh") (JStr "r0")) = JStr "fresh" ∧
  _refresh_token (account (JStr "fresh") (JStr "r0")) = JStr "r0".
Proof.
  refine (scripted logout_keeps_tokens
    (start (account (JStr "fresh") (JStr "r0")) [ok_response JNull])
    (answered Scripted (start (account (JStr "fresh") (JStr "r0")) [ok_response JNull])
       (build_request "post" "logout" None (account (JStr "fresh") (JStr "r0")))
       (ok_response JNull) {| now := 1000; script := [] |}) _ _).
  - reflexivity.
  - reflexivity.
Defined.

Lemma get_units_maps_items_witness :
  scripted get_units
      (start (account (JStr "fresh") JNull) [ok_response three_units_body])
    = (Ret three_units,
       answered Scripted (start (account (JStr "fresh") JNull) [ok_response three_units_body])
         (build_request "get" "units" None (account (JStr "fresh") JNull))
         (ok_response three_units_body) {| now := 1000; script := [] |}) ∧
  scripted get_units
      (start (account (JStr "fresh") JNull) [ok_response example_units_body])
    = (Ret [example_unit],
       answered Scripted (start (account (JStr "fresh") JNull) [ok_response example_units_body])
         (build_request "get" "units" None (account (JStr "fresh") JNull))
         (ok_response example_units_body) {| now := 1000; script := [] |}).
Proof.
  split.
  - refine (proj1 (proj1 (scripted get_units_maps_items _ _
      {| status := 200; resp_json := Ret three_units_body |} _)
      {[ "items" := JArr [example_item; second_item; third_item] ]}
      [example_item; second_item; third_item] _ _)).
    + reflexivity.
    + reflexivity.
    + reflexivity.
  - refine (proj2 (scripted get_units_maps_items _ _
      {| status := 200; resp_json := Ret example_units_body |} _) _).
    + reflexivity.
    + reflexivity.
Defined.

Lemma failed_refresh_leaves_no_access_token_witness :
  _access_token
    (acct (scripted refresh
             (start (account (JStr "stale") (JStr "r0"))
                [Ret {| status := 401; resp_json := Ret JNull |}])).2) = JNull ∧
  _refresh_token
    (acct (scripted refresh
             (start (account (JStr "stale") (JStr "r0"))
                [Ret {| status := 401; resp_json := Ret JNull |}])).2) = JStr "r0".
Proof.
  refine (scripted failed_refresh_leaves_no_access_token
    (start (account (JStr "stale") (JStr "r0"))
       [Ret {| status := 401; resp_json := Ret JNull |}])
    _ InvalidAuthCredentials _ _).
  - reflexivity.
  - by left.
Defined.

(** *** The further properties at work *)

Lemma request_failure_causes_witness :
  acct (scripted _request "post" "logout" None true
          (start (account (JStr "fresh") JNull)
             [Ret {| status := 500; resp_json := Ret JNull |}])).2
    = account (JStr "fresh") JNull.
Proof.
  refine (proj1 (scripted request_failure_causes "post" "logout" None
    (start (account (JStr "fresh") JNull) [Ret {| status := 500; resp_json := Ret JNull |}])
    _ APIUnavailable _)).
  reflexivity.
Defined.

Lemma no_refresh_token_no_refresh_witness :
  refresh_count (new_exchanges Scripted (scripted perform GetUnits)
    (start (account (JStr "stale") JNull) [ok_response example_units_body])) = 0%nat.
Proof.
  refine (proj1 (scripted no_refresh_token_no_refresh GetUnits
    (start (account (JStr "stale") JNull) [ok_response example_units_body]) _ _)).
  - discriminate.
  - reflexivity.
Defined.

Lemma logout_get_units_change_nothing_themselves_witness :
  acct (scripted perform GetUnits
          (start (account (JStr "fresh") (JStr "r0"))
             [Ret {| status := 401; resp_json := Ret JNull |}])).2
    = account (JStr "fresh") (JStr "r0").
Proof.
  refine (proj1 (scripted logout_get_units_change_nothing_themselves GetUnits
    (start (account (JStr "fresh") (JStr "r0"))
       [Ret {| status := 401; resp_json := Ret JNull |}]) _) _).
  - by right.
  - reflexivity.
Defined.

Lemma failed_login_keeps_account_witness :
  acct (scripted login
          (start (account (JStr "fresh") (JStr "r0"))
             [Ret {| status := 401; resp_json := Ret JNull |}])).2
    = account (JStr "fresh") (JStr "r0").
Proof.
  refine (scripted failed_login_keeps_account
    (start (account (JStr "fresh") (JStr "r0"))
       [Ret {| status := 401; resp_json := Ret JNull |}])
    _ InvalidAuthCredentials _ _ _).
  - reflexivity.
  - reflexivity.
  - discriminate.
Defined.

Lemma half_a_body_is_half_stored_witness :
  (scripted perform Login
     (start (account JNull JNull) [ok_response (JObj {[ "accessToken" := JStr "a1" ]})])).1
    = Raise (KeyError "refreshToken") ∧
  _access_token (acct (scripted perform Login
     (start (account JNull JNull) [ok_response (JObj {[ "accessToken" := JStr "a1" ]})])).2)
    = JStr "a1".
Proof.
  refine (scripted half_a_body_is_half_stored Login
    (start (account JNull JNull) [ok_response (JObj {[ "accessToken" := JStr "a1" ]})])
    (own_request Login (account JNull JNull))
    {| status := 200; resp_json := Ret (JObj {[ "accessToken" := JStr "a1" ]}) |}
    {[ "accessToken" := JStr "a1" ]} (JStr "a1") _ _ _ _ _ _).
  - by left.
  - reflexivity.
  - reflexivity.
  - reflexivity.
  - reflexivity.
  - reflexivity.
Defined.

Lemma first_login_witness :
  scripted login
      {| acct := __init__ (JStr "user") (JStr "secret") JNull JNull;
         world := {| now := 1000; script := [ok_response (tokens_body "a1" "r1")] |};
         sent := [] |}
    = (Ret tt,
       {| acct := __init__ (JStr "user") (JStr "secret") (JStr "a1") (JStr "r1");
          world := {| now := 1000; script := [] |};
          sent := [(own_request Login (account JNull JNull),
                    ok_response (tokens_body "a1" "r1"))] |}).
Proof.
  refine (proj2 (scripted first_login (JStr "user") (JStr "secret")
    {| now := 1000; script := [ok_response (tokens_body "a1" "r1")] |} [])
    {| status := 200; resp_json := Ret (tokens_body "a1" "r1") |}
    {| now := 1000; script := [] |}
    {[ "accessToken" := JStr "a1"; "refreshToken" := JStr "r1" ]}
    (JStr "a1") (JStr "r1") _ _ _ _ _).
  - reflexivity.
  - reflexivity.
  - reflexivity.
  - reflexivity.
  - reflexivity.
Defined.

Lemma refresh_succeeds_witness :
  scripted refresh
      (start (account (JStr "junk") (JStr "r0")) [ok_response (tokens_body "a1" "r1")])
    = (Ret tt,
       {| acct := __init__ (JStr "user") (JStr "secret") (JStr "a1") (JStr "r1");
          world := {| now := 1000; script := [] |};
          sent := [(refresh_request (account (JStr "junk") (JStr "r0")),
                    ok_response (tokens_body "a1" "r1"))] |}).
Proof.
  refine (scripted refresh_succeeds
    (start (account (JStr "junk") (JStr "r0")) [ok_response (tokens_body "a1" "r1")])
    {| status := 200; resp_json := Ret (tokens_body "a1" "r1") |}
    {| now := 1000; script := [] |}
    {[ "accessToken" := JStr "a1"; "refreshToken" := JStr "r1" ]}
    (JStr "a1") (JStr "r1") _ _ _ _ _).
  - reflexivity.
  - reflexivity.
  - reflexivity.
  - reflexivity.
  - reflexivity.
Defined.

Lemma non_numeric_exp_raises_witness :
  logout Scripted scripted_request now text_exp_decode
      (start (account (JStr "texp") (JStr "r0")) [ok_response JNull])
    = (Raise TypeError, start (account (JStr "texp") (JStr "r0")) [ok_response JNull]).
Proof.
  refine (proj2 (non_numeric_exp_raises Scripted scripted_request now text_exp_decode
    (start (account (JStr "texp") (JStr "r0")) [ok_response JNull])
    {[ "exp" := JStr "soon" ]} (JStr "soon") _ _ _ _) Logout _).
  - discriminate.
  - reflexivity.
  - reflexivity.
  - reflexivity.
  - discriminate.
Defined.

Lemma failed_refresh_is_tried_again_witness :
  ∃ r rest,
    new_exchanges Scripted (scripted perform GetUnits)
      (scripted refresh
         (start (account (JStr "stale") (JStr "r0"))
            [Ret {| status := 500; resp_json := Ret JNull |};
             ok_response (tokens_body "fresh" "r1");
             ok_response example_units_body])).2
    = (refresh_request (account (JStr "stale") (JStr "r0")), r) :: rest.
Proof.
  refine (proj2 (proj2 (proj2 (scripted failed_refresh_is_tried_again Logout GetUnits
    (start (account (JStr "stale") (JStr "r0"))
       [Ret {| status := 500; resp_json := Ret JNull |};
        ok_response (tokens_body "fresh" "r1");
        ok_response example_units_body])
    _ APIUnavailable _ _ _ _ _ _)))).
  - discriminate.
  - discriminate.
  - right; right. split; [discriminate|].
    exists {[ "exp" := JInt 500 ]}, (JInt 500), (Finite (inject_Z 500)).
    repeat split. vm_compute. discriminate.
  - discriminate.
  - reflexivity.
  - discriminate.
Defined.

Lemma requests_stay_on_the_api_witness :
  api_base +:+ "logout" ∈ endpoints ∧
  (req_headers (own_request Logout (account (JStr "fresh") JNull)) = None ∨
   ∃ tok, tok ≠ JNull ∧
     req_headers (own_request Logout (account (JStr "fresh") JNull))
       = Some {[ "access-token" := tok ]}).
Proof.
  refine (scripted requests_stay_on_the_api Logout
    (start (account (JStr "fresh") JNull) [ok_response JNull])
    (own_request Logout (account (JStr "fresh") JNull), ok_response JNull) _).
  vm_compute. apply list_elem_of_here.
Defined.

Lemma secrets_go_to_their_endpoint_witness :
  (is_Some (login_data (account JNull JNull) !! "password") →
     api_base +:+ "login" = api_base +:+ "login") ∧
  (is_Some (login_data (account JNull JNull) !! "refreshToken") →
     api_base +:+ "login" = refresh_url).
Proof.
  refine (scripted secrets_go_to_their_endpoint Login
    (start (account JNull JNull) [ok_response (tokens_body "a1" "r1")])
    (own_request Login (account JNull JNull), ok_response (tokens_body "a1" "r1"))
    (login_data (account JNull JNull)) _ _).
  - vm_compute. apply list_elem_of_here.
  - reflexivity.
Defined.

Lemma get_units_first_bad_item_witness :
  scripted get_units
      (start (account (JStr "fresh") JNull)
         [ok_response (JObj {[ "items" := JArr [example_item; item_without_timezone; JNull] ]})])
    = (Raise (KeyError "timezone"),
       (scripted _request "get" "units" None false
          (start (account (JStr "fresh") JNull)
             [ok_response (JObj {[ "items" := JArr [example_item; item_without_timezone; JNull] ]})])).2).
Proof.
  refine (scripted get_units_first_bad_item _ _
    {| status := 200;
       resp_json := Ret (JObj {[ "items" := JArr [example_item; item_without_timezone; JNull] ]}) |}
    {[ "items" := JArr [example_item; item_without_timezone; JNull] ]}
    [example_item] item_without_timezone [JNull] (KeyError "timezone") _ _ _ _ _).
  - reflexivity.
  - reflexivity.
  - reflexivity.
  - constructor; [|constructor]. exists example_unit. reflexivity.
  - reflexivity.
Defined.

Lemma get_units_wrong_body_witness :
  scripted get_units
      (start (account (JStr "fresh") JNull) [ok_response (JObj ∅)])
    = (Raise (KeyError "items"),
       (scripted _request "get" "units" None false
          (start (account (JStr "fresh") JNull) [ok_response (JObj ∅)])).2).
Proof.
  refine (proj1 (proj2 (proj2 (scripted get_units_wrong_body _ _
    {| status := 200; resp_json := Ret (JObj ∅) |} _))) ∅ _ _).
  - reflexivity.
  - reflexivity.
  - reflexivity.
Defined.
